(** * dialog: a driver for the unix [dialog] utility

    A shallow embedding of [dialog.go].  Every dialog node builds the argument
    list of the external program, runs it, reads the choice written on the
    auxiliary file descriptor and computes the next node.

    Conventions of the embedding:
    - a Go [string] is a sequence of bytes: [string] of [ascii];
    - a Go [int] is a [Z] in the 64-bit signed range, additions wrap;
    - [*string] and [*bool] are optional addresses ([None] is [nil]) into a
      store of caller-owned cells; two pointers may hold the same address;
    - the external world (the [dialog] process, the terminal, [os.Pipe]) is an
      environment of oracles that may depend on the current state;
    - callbacks ([func() string], validators, option suppliers, producers)
      read the state and do not write the cells;
    - a nil dereference or a call through a nil interface panics. *)

From Stdlib Require Import ZArith String Ascii DecimalString List Lia.
From Stdlib Require DecimalPos.
From stdpp Require Import base strings list functions gmap.

Open Scope Z_scope.

(** ** Go's [int] *)

Module GoInt.

Definition min_int : Z := - 2 ^ 63.
Definition max_int : Z := 2 ^ 63 - 1.

Definition in_range (z : Z) : Prop := min_int <= z <= max_int.

Definition in_rangeb (z : Z) : bool := (min_int <=? z) && (z <=? max_int).

(** Two's complement wrap-around of a 64-bit signed result. *)
Definition wrap (z : Z) : Z := (z + 2 ^ 63) mod 2 ^ 64 - 2 ^ 63.

Definition add (a b : Z) : Z := wrap (a + b).

End GoInt.

(** ** The parts of Go's standard library the package calls *)

Module strconv.

(** [strconv.Itoa]: decimal digits, with a leading minus sign for negatives. *)
Definition Itoa (i : Z) : string := NilZero.string_of_int (Z.to_int i).

Definition byte (c : ascii) : Z := Z.of_N (N_of_ascii c).

Definition is_digit (c : ascii) : bool := (48 <=? byte c) && (byte c <=? 57).

Fixpoint digits (acc : Z) (s : string) : option Z :=
  match s with
  | EmptyString => Some acc
  | String ch s' =>
      if is_digit ch then digits (acc * 10 + (byte ch - 48)) s' else None
  end.

(** [strconv.Atoi]: an optional sign, then at least one decimal digit and
    nothing else; a value outside the range of [int] is an error.
    [None] stands for a non-nil [err]. *)
Definition Atoi (s : string) : option Z :=
  match s with
  | EmptyString => None
  | String c0 rest =>
      let neg := Ascii.eqb c0 "-" in
      let ds := if neg || Ascii.eqb c0 "+" then rest else s in
      match ds with
      | EmptyString => None
      | _ =>
          match digits 0 ds with
          | None => None
          | Some n =>
              let v := if neg then - n else n in
              if GoInt.in_rangeb v then Some v else None
          end
      end
  end.

End strconv.

Module strings.

Import strconv.

(** The ASCII white space of [strings.TrimSpace]:
    tab, line feed, vertical tab, form feed, carriage return, space. *)
Definition asciiSpace (c : ascii) : bool :=
  let b := byte c in ((9 <=? b) && (b <=? 13)) || (b =? 32).

(** UTF-8 encodings of the other runes for which [unicode.IsSpace] holds:
    U+0085 and U+00A0 on two bytes; U+1680, U+2000..U+200A, U+2028, U+2029,
    U+202F, U+205F and U+3000 on three. *)
Definition space2 (a b : ascii) : bool :=
  (byte a =? 194) && ((byte b =? 133) || (byte b =? 160)).

Definition space3 (a b c : ascii) : bool :=
  ((byte a =? 225) && (byte b =? 154) && (byte c =? 128))
  || ((byte a =? 226) && (byte b =? 128)
      && (((128 <=? byte c) && (byte c <=? 138))
          || (byte c =? 168) || (byte c =? 169) || (byte c =? 175)))
  || ((byte a =? 226) && (byte b =? 129) && (byte c =? 159))
  || ((byte a =? 227) && (byte b =? 128) && (byte c =? 128)).

(** Drop the leading runes that are white space. *)
Fixpoint trimLeft (s : string) : string :=
  match s with
  | EmptyString => EmptyString
  | String a s1 =>
      if asciiSpace a then trimLeft s1
      else match s1 with
           | String b s2 =>
               if space2 a b then trimLeft s2
               else match s2 with
                    | String c s3 => if space3 a b c then trimLeft s3 else s
                    | EmptyString => s
                    end
           | EmptyString => s
           end
  end.

(** The same on the reversed string: the bytes of a rune come last first. *)
Fixpoint trimLeftRev (r : string) : string :=
  match r with
  | EmptyString => EmptyString
  | String c r1 =>
      if asciiSpace c then trimLeftRev r1
      else match r1 with
           | String b r2 =>
               if space2 b c then trimLeftRev r2
               else match r2 with
                    | String a r3 => if space3 a b c then trimLeftRev r3 else r
                    | EmptyString => r
                    end
           | EmptyString => r
           end
  end.

Definition trimRight (s : string) : string :=
  String.rev (trimLeftRev (String.rev s)).

(** [strings.TrimSpace]: all leading and trailing white space removed. *)
Definition TrimSpace (s : string) : string := trimRight (trimLeft s).

End strings.

Module regexp.

Import strconv.

(** The class [\s] of Go's regexp syntax: tab, line feed, form feed,
    carriage return, space (no vertical tab, ASCII only). *)
Definition perlSpace (c : ascii) : bool :=
  let b := byte c in (b =? 9) || (b =? 10) || (b =? 12) || (b =? 13) || (b =? 32).

(** [FindAllStringIndex] for the expression [\s+]: the maximal runs of
    [\s] bytes, as pairs (start, end), left to right.  [run] is the start of
    the run being read, if any. *)
Fixpoint findAllSpaces (pos : nat) (run : option nat) (s : string)
  : list (nat * nat) :=
  match s with
  | EmptyString =>
      match run with Some a => [(a, pos)] | None => [] end
  | String c s' =>
      if perlSpace c then findAllSpaces (S pos) (Some (default pos run)) s'
      else match run with
           | Some a => (a, pos) :: findAllSpaces (S pos) None s'
           | None => findAllSpaces (S pos) None s'
           end
  end.

(** The loop of [Regexp.Split] with [n < 0]. *)
Fixpoint splitLoop (s : string) (matches : list (nat * nat))
    (beg end_ : nat) (strs : list string) : list string :=
  match matches with
  | [] =>
      if Nat.eqb end_ (String.length s) then strs
      else strs ++ [substring beg (String.length s - beg) s]
  | (m0, m1) :: rest =>
      let strs' :=
        if Nat.eqb m1 0 then strs else strs ++ [substring beg (m0 - beg) s] in
      splitLoop s rest m1 m0 strs'
  end.

(** [Split(s, -1)] for the compiled expression [\s+]. *)
Definition SplitSpaces (s : string) : list string :=
  if Nat.eqb (String.length s) 0 then [EmptyString]
  else splitLoop s (findAllSpaces 0 None s) 0 0 [].

End regexp.

(** ** Errors, the store of caller-owned cells and the outside world *)

(** An [error] value: built by [fmt.Errorf] in this package, or handed over by
    a collaborator (the process, the pipe, a callback). *)
Inductive error : Type :=
| Errorf (msg : string)
| ForeignError (msg : string).

(** The address of a cell owned by the caller. *)
Definition loc : Type := positive.

(** What the [dialog] process reads as its standard input. *)
Inductive Stdin : Type :=
| os_Stdin
| PipeReader (written : string).

(** The calls that leave the package. *)
Inductive Event : Type :=
| EvExec (name : string) (cmdArgs : list string) (stdin : Stdin)
| EvValidate (input : string).

Record State : Type := mkState {
  str_cells : loc -> string;
  bool_cells : loc -> bool;
  trace : list Event
}.

Record Env : Type := mkEnv {
  (** the package variable [DefaultTitle] *)
  DefaultTitle : string;
  (** [os.Pipe]: [Some e] when the pipe cannot be created *)
  os_Pipe : State -> option error;
  (** [cmd.Run] of the process with what it wrote on descriptor 3 *)
  cmd_Run : State -> list string -> Stdin -> string * option error;
  (** [terminal.GetSize] of standard input: width and height *)
  terminal_GetSize : State -> option (Z * Z)
}.

Definition DIALOG_PROC : string := "dialog".
Definition DEFAULT_HEIGHT : Z := 20.
Definition DEFAULT_WIDTH : Z := 60.
Definition DEFAULT_MENU_HEIGHT : Z := 15.

(** ** A state monad with panics *)

Inductive outcome (A : Type) : Type :=
| Returns (a : A)
| Panics (msg : string).
Arguments Returns {A} a.
Arguments Panics {A} msg.

Definition M (A : Type) : Type := State -> outcome A * State.

Definition ret {A} (a : A) : M A := fun s => (Returns a, s).

Definition bind {A B} (m : M A) (k : A -> M B) : M B :=
  fun s =>
    match m s with
    | (Returns a, s') => k a s'
    | (Panics msg, s') => (Panics msg, s')
    end.

Definition panic {A} (msg : string) : M A := fun s => (Panics msg, s).

Definition get : M State := fun s => (Returns s, s).

Definition emit (e : Event) : M unit :=
  fun s => (Returns tt, mkState (str_cells s) (bool_cells s) (trace s ++ [e])).

(** The state once the process has been started. *)
Definition started (cmdArgs : list string) (stdin : Stdin) (s : State) : State :=
  mkState (str_cells s) (bool_cells s) (trace s ++ [EvExec DIALOG_PROC cmdArgs stdin]).

Definition store_string (p : loc) (v : string) : M unit :=
  fun s => (Returns tt, mkState (<[p := v]> (str_cells s)) (bool_cells s) (trace s)).

Definition store_bool (p : loc) (v : bool) : M unit :=
  fun s => (Returns tt, mkState (str_cells s) (<[p := v]> (bool_cells s)) (trace s)).

Declare Scope go_scope.
Delimit Scope go_scope with go.
Notation "x <- m ;; k" := (bind m (fun x => k))
  (at level 100, m at next level, right associativity) : go_scope.
Notation "m ;; k" := (bind m (fun _ => k))
  (at level 100, right associativity) : go_scope.

(** ** The dialog nodes *)

Record Common : Type := mkCommon {
  DialogRc : string;
  Title : string;
  Width : Z;
  Height : Z
}.

Section Nodes.

(** The type of the interface [Dialog], tied below. *)
Variable D : Type.

Record MsgBox_ : Type := mkMsgBox {
  MsgBox_Common : Common;
  MsgBox_Text : string;
  MsgBox_NextSibling : D
}.

Record Pause_ : Type := mkPause {
  Pause_Common : Common;
  Pause_Text : string;
  Pause_Seconds : Z;
  Pause_NextSibling : D
}.

Record MenuOption_ : Type := mkMenuOption {
  MenuOption_Key : string;
  MenuOption_Text : string;
  MenuOption_Next : D;
  MenuOption_NextDefaultKey : string;
  MenuOption_CrumbText : option (State -> string)
}.

Record Menu_ : Type := mkMenu {
  Menu_Common : Common;
  Menu_Text : option (State -> string);
  Menu_MenuHeight : Z;
  Menu_DefaultKey : string;
  Menu_Options : option (State -> list MenuOption_ * option error)
}.

Record InputBox_ : Type := mkInputBox {
  InputBox_Common : Common;
  InputBox_Text : option (State -> string);
  InputBox_Value : option loc;
  InputBox_Validate : option (State -> string -> string * bool);
  InputBox_NextSibling : D
}.

Record CheckListItem : Type := mkCheckListItem {
  CheckListItem_Name : string;
  CheckListItem_Value : option loc
}.

Record CheckListBox_ : Type := mkCheckListBox {
  CheckListBox_Common : Common;
  CheckListBox_Text : option (State -> string);
  CheckListBox_Items : list CheckListItem;
  CheckListBox_Validate : option (State -> string -> string * bool);
  CheckListBox_NextSibling : D
}.

(** [Program] writes to the pipe and returns: the bytes written and the
    error the goroutine sends on its channel. *)
Record ProgramBox_ : Type := mkProgramBox {
  ProgramBox_Common : Common;
  ProgramBox_Text : string;
  ProgramBox_Program : option (State -> string * option error);
  ProgramBox_Next : D
}.

Record ChildDialog_ : Type := mkChildDialog {
  ChildDialog_Dialog : D;
  ChildDialog_Crumb : option (State -> string);
  ChildDialog_ParentMenu : option Menu_;
  ChildDialog_MenuOption : option MenuOption_
}.

End Nodes.

Arguments mkMsgBox {D}.
Arguments MsgBox_Common {D}.
Arguments MsgBox_Text {D}.
Arguments MsgBox_NextSibling {D}.
Arguments mkPause {D}.
Arguments Pause_Common {D}.
Arguments Pause_Text {D}.
Arguments Pause_Seconds {D}.
Arguments Pause_NextSibling {D}.
Arguments mkMenuOption {D}.
Arguments MenuOption_Key {D}.
Arguments MenuOption_Text {D}.
Arguments MenuOption_Next {D}.
Arguments MenuOption_NextDefaultKey {D}.
Arguments MenuOption_CrumbText {D}.
Arguments mkMenu {D}.
Arguments Menu_Common {D}.
Arguments Menu_Text {D}.
Arguments Menu_MenuHeight {D}.
Arguments Menu_DefaultKey {D}.
Arguments Menu_Options {D}.
Arguments mkInputBox {D}.
Arguments InputBox_Common {D}.
Arguments InputBox_Text {D}.
Arguments InputBox_Value {D}.
Arguments InputBox_Validate {D}.
Arguments InputBox_NextSibling {D}.
Arguments mkCheckListBox {D}.
Arguments CheckListBox_Common {D}.
Arguments CheckListBox_Text {D}.
Arguments CheckListBox_Items {D}.
Arguments CheckListBox_Validate {D}.
Arguments CheckListBox_NextSibling {D}.
Arguments mkProgramBox {D}.
Arguments ProgramBox_Common {D}.
Arguments ProgramBox_Text {D}.
Arguments ProgramBox_Program {D}.
Arguments ProgramBox_Next {D}.
Arguments mkChildDialog {D}.
Arguments ChildDialog_Dialog {D}.
Arguments ChildDialog_Crumb {D}.
Arguments ChildDialog_ParentMenu {D}.
Arguments ChildDialog_MenuOption {D}.

(** Declared by the package and used by no method. *)
Record MixedFormItem : Type := mkMixedFormItem {
  MixedFormItem_Label : string
}.

Record MixedForm : Type := mkMixedForm {
  MixedForm_Text : string;
  MixedForm_FormHeight : Z;
  MixedForm_Items : list MixedFormItem
}.

(** The values of the interface [Dialog]: [nil], a pointer to one of the six
    node types, or a [ChildDialog] value (which embeds a [Dialog]). *)
#[warnings="-register-all"]
Inductive Dialog : Type :=
| Nil
| MsgBoxP (m : MsgBox_ Dialog)
| PauseP (m : Pause_ Dialog)
| MenuP (m : Menu_ Dialog)
| InputBoxP (m : InputBox_ Dialog)
| CheckListBoxP (m : CheckListBox_ Dialog)
| ProgramBoxP (m : ProgramBox_ Dialog)
| ChildDialogV (c : ChildDialog_ Dialog).

Abbreviation MsgBox := (MsgBox_ Dialog).
Abbreviation Pause := (Pause_ Dialog).
Abbreviation MenuOption := (MenuOption_ Dialog).
Abbreviation Menu := (Menu_ Dialog).
Abbreviation InputBox := (InputBox_ Dialog).
Abbreviation CheckListBox := (CheckListBox_ Dialog).
Abbreviation ProgramBox := (ProgramBox_ Dialog).
Abbreviation ChildDialog := (ChildDialog_ Dialog).

(** ** Running the external program *)

Section Run.

Variable env : Env.

Open Scope go_scope.

(** [runStdin]: the arguments are prefixed with the flag that sends the
    choice to descriptor 3.  When the pipe cannot be created the process is
    never started. *)
Definition runStdin (args : list string) (stdin : Stdin)
  : M (string * option error) :=
  let cmdArgs := ["--output-fd"; "3"] ++ args in
  s <- get ;;
  match os_Pipe env s with
  | Some err => ret (EmptyString, Some err)
  | None =>
      emit (EvExec DIALOG_PROC cmdArgs stdin) ;;
      ret (cmd_Run env s cmdArgs stdin)
  end.

Definition run (args : list string) : M (string * option error) :=
  runStdin args os_Stdin.

(** ** Title and size *)

Definition title (c : Common) : string :=
  if decide (Title c <> EmptyString) then Title c else DefaultTitle env.

Definition width (c : Common) (s : State) : Z :=
  if 0 <? Width c then Width c
  else if Width c <? 0 then
    (* use screen width - x *)
    match terminal_GetSize env s with
    | Some (w, _) => GoInt.add w (Width c)
    | None => DEFAULT_WIDTH
    end
  else DEFAULT_WIDTH.

Definition height (c : Common) (s : State) : Z :=
  if 0 <? Height c then Height c
  else if Height c <? 0 then
    (* use screen height - y *)
    match terminal_GetSize env s with
    | Some (_, h) => GoInt.add h (Height c)
    | None => DEFAULT_HEIGHT
    end
  else DEFAULT_HEIGHT.

Definition runArgs (c : Common) : list string := ["--title"; title c].

(** ** MsgBox and Pause *)

Definition MsgBox_args (m : MsgBox) (s : State) : list string :=
  let args := runArgs (MsgBox_Common m) in
  args ++ ["--msgbox"; MsgBox_Text m;
           strconv.Itoa (height (MsgBox_Common m) s);
           strconv.Itoa (width (MsgBox_Common m) s)].

Definition MsgBox_Run (m : MsgBox) (crumbs : string) : M (Dialog * option error) :=
  s <- get ;;
  r <- run (MsgBox_args m s) ;;
  match snd r with
  | Some err => ret (Nil, Some err)
  | None => ret (MsgBox_NextSibling m, None)
  end.

Definition Pause_args (m : Pause) (crumbs : string) (s : State) : list string :=
  let args := runArgs (Pause_Common m) in
  args ++ ["--pause"; crumbs +:+ "\n" +:+ Pause_Text m;
           strconv.Itoa (height (Pause_Common m) s);
           strconv.Itoa (width (Pause_Common m) s);
           strconv.Itoa (Pause_Seconds m)].

Definition Pause_Run (m : Pause) (crumbs : string) : M (Dialog * option error) :=
  s <- get ;;
  r <- run (Pause_args m crumbs s) ;;
  match snd r with
  | Some err => ret (Nil, Some err)
  | None => ret (Pause_NextSibling m, None)
  end.

(** ** Menu *)

Definition menuHeight (m : Menu) (optlen : Z) : Z :=
  if 0 <? Menu_MenuHeight m then Menu_MenuHeight m else optlen.

(** The loop that appends each option's key and text. *)
Fixpoint appendOptions (args : list string) (opts : list MenuOption) : list string :=
  match opts with
  | [] => args
  | mo :: rest => appendOptions (args ++ [MenuOption_Key mo; MenuOption_Text mo]) rest
  end.

Definition Menu_args (m : Menu) (crumbs : string) (s : State)
    (opts : list MenuOption) : list string :=
  let args := runArgs (Menu_Common m) in
  let args :=
    if decide (Menu_DefaultKey m <> EmptyString)
    then args ++ ["--default-item"; Menu_DefaultKey m] else args in
  let text := crumbs in
  let text :=
    match Menu_Text m with
    | Some f => text +:+ "\n" +:+ f s
    | None => text
    end in
  let args := args ++ ["--menu"; text;
                       strconv.Itoa (height (Menu_Common m) s);
                       strconv.Itoa (width (Menu_Common m) s);
                       strconv.Itoa (menuHeight m (Z.of_nat (length opts)))] in
  appendOptions args opts.

(** The crumb function of a selected option. *)
Definition crumbFunc (mo : MenuOption) : State -> string :=
  match MenuOption_CrumbText mo with
  | Some f => f
  | None => fun _ => MenuOption_Text mo
  end.

(** The loop that looks the returned key up, and the error after it.
    [&mo] points to the loop's copy of the option: the option's value. *)
Fixpoint selectOption (m : Menu) (k : string) (opts : list MenuOption)
  : Dialog * option error :=
  match opts with
  | [] => (Nil, Some (Errorf ("returned option '" +:+ k +:+ "' not found")))
  | mo :: rest =>
      if decide (MenuOption_Key mo = k) then
        (ChildDialogV (mkChildDialog (MenuOption_Next mo) (Some (crumbFunc mo))
                                     (Some m) (Some mo)), None)
      else selectOption m k rest
  end.

Definition Menu_Run (m : Menu) (crumbs : string) : M (Dialog * option error) :=
  match Menu_Options m with
  | None => panic "invalid memory address or nil pointer dereference"
  | Some options =>
      s <- get ;;
      match snd (options s) with
      | Some err => ret (Nil, Some err)
      | None =>
          let opts := fst (options s) in
          r <- run (Menu_args m crumbs s opts) ;;
          match snd r with
          | Some err => ret (Nil, Some err)
          | None => ret (selectOption m (fst r) opts)
          end
      end
  end.

(** ** InputBox *)

(** The call of a validator; both callers drop what it returns. *)
Definition callValidate (validate : option (State -> string -> string * bool))
    (k : string) : M unit :=
  match validate with
  | Some v =>
      s <- get ;;
      emit (EvValidate k) ;;
      let ok := snd (v s k) in
      if negb ok then ret tt (* TODO FIXME: flash error, return new sibling *)
      else ret tt
  | None => ret tt
  end.

Definition InputBox_args (m : InputBox) (crumbs : string) (s : State)
    (text : State -> string) (value : loc) : list string :=
  let args := runArgs (InputBox_Common m) in
  args ++ ["--inputbox"; crumbs +:+ "\n" +:+ text s;
           strconv.Itoa (height (InputBox_Common m) s);
           strconv.Itoa (width (InputBox_Common m) s);
           str_cells s value].

Definition InputBox_Run (m : InputBox) (crumbs : string) : M (Dialog * option error) :=
  match InputBox_Value m with
  | None => ret (Nil, Some (Errorf "inputbox has no result ptr"))
  | Some value =>
      match InputBox_Text m with
      | None => ret (Nil, Some (Errorf "inputbox has no text func"))
      | Some text =>
          s <- get ;;
          r <- run (InputBox_args m crumbs s text value) ;;
          match snd r with
          | Some err => ret (Nil, Some err)
          | None =>
              callValidate (InputBox_Validate m) (fst r) ;;
              store_string value (fst r) ;;
              ret (InputBox_NextSibling m, None)
          end
      end
  end.

(** ** CheckListBox *)

(** [itemArgs], from index [i] on: tag, item and status of every item.
    [None] is the panic of reading through a nil [Value]. *)
Fixpoint itemArgsFrom (s : State) (i : Z) (items : list CheckListItem)
    (ret_ : list string) : option (list string) :=
  match items with
  | [] => Some ret_
  | item :: rest =>
      match CheckListItem_Value item with
      | None => None
      | Some p =>
          let ret_ := ret_ ++ [strconv.Itoa i] in
          let ret_ := ret_ ++ [CheckListItem_Name item] in
          let ret_ := if bool_cells s p then ret_ ++ ["on"] else ret_ ++ ["off"] in
          itemArgsFrom s (i + 1) rest ret_
      end
  end.

Definition itemArgs (m : CheckListBox) (s : State) : option (list string) :=
  itemArgsFrom s 0 (CheckListBox_Items m) [].

Definition CheckListBox_args (m : CheckListBox) (crumbs : string) (s : State)
    (text : State -> string) : option (list string) :=
  let args := runArgs (CheckListBox_Common m) in
  let args := args ++ ["--checklist"; crumbs +:+ "\n" +:+ text s;
                       strconv.Itoa (height (CheckListBox_Common m) s);
                       strconv.Itoa (width (CheckListBox_Common m) s);
                       strconv.Itoa (Z.of_nat (length (CheckListBox_Items m)))] in
  match itemArgs m s with
  | Some items => Some (args ++ items)
  | None => None
  end.

(** The loop over the tokens of the returned text. *)
Fixpoint parseIndices (len : Z) (tokens : list string) (setIndices : gmap Z bool)
  : gmap Z bool :=
  match tokens with
  | [] => setIndices
  | v :: rest =>
      match strconv.Atoi v with
      | Some vi =>
          if (0 <=? vi) && (vi <? len)
          then parseIndices len rest (<[vi := true]> setIndices)
          else parseIndices len rest setIndices
      | None => parseIndices len rest setIndices
      end
  end.

(** Reading a [map[int]bool]: an absent key reads as [false]. *)
Definition index (setIndices : gmap Z bool) (i : Z) : bool :=
  default false (setIndices !! i).

(** The loop that writes every item's cell, from index [i] on. *)
Fixpoint storeItemsFrom (setIndices : gmap Z bool) (i : Z)
    (items : list CheckListItem) : M unit :=
  match items with
  | [] => ret tt
  | item :: rest =>
      match CheckListItem_Value item with
      | None => panic "invalid memory address or nil pointer dereference"
      | Some p =>
          store_bool p (index setIndices i) ;;
          storeItemsFrom setIndices (i + 1) rest
      end
  end.

Definition hasNilValue (items : list CheckListItem) : bool :=
  existsb (fun item => bool_decide (CheckListItem_Value item = None)) items.

(** The index set read from the text [k] the process returned. *)
Definition setIndicesOf (m : CheckListBox) (k : string) : gmap Z bool :=
  parseIndices (Z.of_nat (length (CheckListBox_Items m)))
    (regexp.SplitSpaces (strings.TrimSpace k)) ∅.

Definition CheckListBox_Run (m : CheckListBox) (crumbs : string)
  : M (Dialog * option error) :=
  if hasNilValue (CheckListBox_Items m) then
    ret (Nil, Some (Errorf "checklistbox has no result ptr"))
  else
    match CheckListBox_Text m with
    | None => ret (Nil, Some (Errorf "checklistbox has no text func"))
    | Some text =>
        s <- get ;;
        match CheckListBox_args m crumbs s text with
        | None => panic "invalid memory address or nil pointer dereference"
        | Some args =>
            r <- run args ;;
            match snd r with
            | Some err => ret (Nil, Some err)
            | None =>
                callValidate (CheckListBox_Validate m) (fst r) ;;
                (* parse returned values *)
                storeItemsFrom (setIndicesOf m (fst r)) 0 (CheckListBox_Items m) ;;
                ret (CheckListBox_NextSibling m, None)
            end
        end
    end.

(** ** ProgramBox *)

Definition ProgramBox_args (m : ProgramBox) (crumbs : string) (s : State)
  : list string :=
  let args := runArgs (ProgramBox_Common m) in
  args ++ ["--programbox"; crumbs +:+ "\n" +:+ ProgramBox_Text m;
           strconv.Itoa (height (ProgramBox_Common m) s);
           strconv.Itoa (width (ProgramBox_Common m) s)].

(** The producer runs in a goroutine next to the process, which reads what
    the producer writes.  The producer's error is received from the channel
    only after the process has ended without error. *)
Definition ProgramBox_Run (m : ProgramBox) (crumbs : string)
  : M (Dialog * option error) :=
  match ProgramBox_Program m with
  | None => ret (Nil, Some (Errorf "programbox has no program callback set"))
  | Some program =>
      s <- get ;;
      let produced := program s in
      r <- runStdin (ProgramBox_args m crumbs s) (PipeReader (fst produced)) ;;
      match snd r with
      | Some err => ret (Nil, Some err)
      | None =>
          match snd produced with
          | Some err => ret (Nil, Some err)
          | None => ret (ProgramBox_Next m, None)
          end
      end
  end.

(** ** The method [Run] of the interface

    [ChildDialog] has no method of its own: the method of the embedded
    [Dialog] is promoted. *)

Fixpoint Run (d : Dialog) (crumbs : string) : M (Dialog * option error) :=
  match d with
  | Nil => panic "invalid memory address or nil pointer dereference"
  | MsgBoxP m => MsgBox_Run m crumbs
  | PauseP m => Pause_Run m crumbs
  | MenuP m => Menu_Run m crumbs
  | InputBoxP m => InputBox_Run m crumbs
  | CheckListBoxP m => CheckListBox_Run m crumbs
  | ProgramBoxP m => ProgramBox_Run m crumbs
  | ChildDialogV c => Run (ChildDialog_Dialog c) crumbs
  end.

End Run.

(** ** The kinds of error of the specification

    The package has no error types: the kinds are read off the messages. *)

Definition PreconditionFailure (e : error) : Prop :=
  exists msg, e = Errorf msg
    /\ msg ∈ ["inputbox has no result ptr"; "inputbox has no text func";
              "checklistbox has no result ptr"; "checklistbox has no text func";
              "programbox has no program callback set"].

Definition UnmatchedSelection (e : error) : Prop :=
  exists k, e = Errorf ("returned option '" +:+ k +:+ "' not found").

(** ** The command line of a menu, as the specification words it

    The flag of the auxiliary channel, the title, the default item when a
    default key is configured, then [--menu] with the breadcrumbs (and the
    extra text after the separator when a text supplier is configured), the
    height, the width, the menu height (the configured one when positive, the
    number of options otherwise) and the key and label of every option. *)
Definition menu_command_line (env : Env) (m : Menu) (crumbs : string)
    (s : State) (opts : list MenuOption) : list string :=
  ["--output-fd"; "3"]
  ++ ["--title";
      if decide (Title (Menu_Common m) = EmptyString)
      then DefaultTitle env else Title (Menu_Common m)]
  ++ (if decide (Menu_DefaultKey m = EmptyString) then []
      else ["--default-item"; Menu_DefaultKey m])
  ++ ["--menu";
      match Menu_Text m with
      | Some extra => crumbs +:+ "\n" +:+ extra s
      | None => crumbs
      end;
      strconv.Itoa (height env (Menu_Common m) s);
      strconv.Itoa (width env (Menu_Common m) s);
      strconv.Itoa (if decide (0 < Menu_MenuHeight m) then Menu_MenuHeight m
                    else Z.of_nat (length opts))]
  ++ concat (map (fun mo => [MenuOption_Key mo; MenuOption_Text mo]) opts).

(** The binding a menu returns for the option [mo]. *)
Definition childOf (m : Menu) (mo : MenuOption) (crumb : State -> string) : Dialog :=
  ChildDialogV (mkChildDialog (MenuOption_Next mo) (Some crumb) (Some m) (Some mo)).

(** The state after the call of a validator: one more event when a validator
    is configured, whatever it answers. *)
Definition validated (validate : option (State -> string -> string * bool))
    (k : string) (s : State) : State :=
  match validate with
  | Some _ => mkState (str_cells s) (bool_cells s) (trace s ++ [EvValidate k])
  | None => s
  end.

(** ** Sample worlds and nodes *)

(** Every cell empty or off, nothing called yet. *)
Definition blank : State := mkState (fun _ => EmptyString) (fun _ => false) [].

(** The string cell 1 holds "old". *)
Definition holding_old : State :=
  mkState (<[1%positive := "old"]> (fun _ => EmptyString)) (fun _ => false) [].

(** A world where the process writes [k] and succeeds, on a 80 x 24 screen. *)
Definition answering (k : string) : Env :=
  mkEnv "Title" (fun _ => None) (fun _ _ _ => (k, None)) (fun _ => Some (80, 24)).

(** A world where the process fails with [e]. *)
Definition failing (e : error) : Env :=
  mkEnv "Title" (fun _ => None) (fun _ _ _ => (EmptyString, Some e))
        (fun _ => Some (80, 24)).

Definition plain : Common := mkCommon EmptyString EmptyString 0 0.

Definition nodeX : Dialog := MsgBoxP (mkMsgBox plain "X" Nil).
Definition nodeY : Dialog := MsgBoxP (mkMsgBox plain "Y" Nil).

Definition optionA : MenuOption := mkMenuOption "1" "A" nodeX EmptyString None.
Definition optionB : MenuOption := mkMenuOption "2" "B" nodeY EmptyString None.

Definition optionsAB : State -> list MenuOption * option error :=
  fun _ => ([optionA; optionB], None).

Definition menuAB : Menu := mkMenu plain None 0 EmptyString (Some optionsAB).

(** An input box on cell 1 whose validator rejects everything. *)
Definition askName : InputBox :=
  mkInputBox plain (Some (fun _ => "name")) (Some 1%positive)
             (Some (fun _ k => (k, false))) Nil.

(** Three items on three cells. *)
Definition pick3 : CheckListBox :=
  mkCheckListBox plain (Some (fun _ => "pick"))
    [mkCheckListItem "a" (Some 1%positive);
     mkCheckListItem "b" (Some 2%positive);
     mkCheckListItem "c" (Some 3%positive)] None Nil.

(** Two items on one cell. *)
Definition aliased : CheckListBox :=
  mkCheckListBox plain (Some (fun _ => "pick"))
    [mkCheckListItem "a" (Some 1%positive);
     mkCheckListItem "b" (Some 1%positive)] None Nil.

(** A live-output panel whose producer writes "log" and reports an error. *)
Definition tailLog : ProgramBox :=
  mkProgramBox plain "log" (Some (fun _ => ("log", Some (ForeignError "producer"))))
               nodeX.

(** Four columns less than the screen, default height. *)
Definition narrow : Common := mkCommon EmptyString EmptyString (-4) 0.

(** ** Further vocabulary for the properties *)

(** The node a value of the interface runs: the embedded dialogs of
    [ChildDialog] values are followed down to the first other value. *)
Fixpoint innermost (d : Dialog) : Dialog :=
  match d with
  | ChildDialogV c => innermost (ChildDialog_Dialog c)
  | _ => d
  end.

(** The cells a value of the interface is bound to. *)
Definition string_cells_of (d : Dialog) : list loc :=
  match innermost d with
  | InputBoxP m =>
      match InputBox_Value m with Some p => [p] | None => [] end
  | _ => []
  end.

Definition bool_cells_of (d : Dialog) : list loc :=
  match innermost d with
  | CheckListBoxP m => omap CheckListItem_Value (CheckListBox_Items m)
  | _ => []
  end.

Definition isExec (e : Event) : bool :=
  match e with
  | EvExec _ _ _ => true
  | EvValidate _ => false
  end.

(** The events of a validator call: none without a validator. *)
Definition validateEvents (validate : option (State -> string -> string * bool))
    (k : string) : list Event :=
  match validate with
  | Some _ => [EvValidate k]
  | None => []
  end.

(** The bool cells after the store loop of a checklist, from index [i] on. *)
Fixpoint storedCells (setIndices : gmap Z bool) (i : Z)
    (items : list CheckListItem) (cells : loc -> bool) : loc -> bool :=
  match items with
  | [] => cells
  | item :: rest =>
      match CheckListItem_Value item with
      | Some p => storedCells setIndices (i + 1) rest (<[p := index setIndices i]> cells)
      | None => cells
      end
  end.

(** The start of every command line: the flag of the auxiliary descriptor,
    then the title, the package's default when the node has none. *)
Definition command_prefix (env : Env) (c : Common) : list string :=
  ["--output-fd"; "3"; "--title";
   if decide (Title c = EmptyString) then DefaultTitle env else Title c].

Definition msgbox_command_line (env : Env) (m : MsgBox) (s : State) : list string :=
  command_prefix env (MsgBox_Common m)
  ++ ["--msgbox"; MsgBox_Text m;
      strconv.Itoa (height env (MsgBox_Common m) s);
      strconv.Itoa (width env (MsgBox_Common m) s)].

Definition pause_command_line (env : Env) (m : Pause) (crumbs : string)
    (s : State) : list string :=
  command_prefix env (Pause_Common m)
  ++ ["--pause"; crumbs +:+ "\n" +:+ Pause_Text m;
      strconv.Itoa (height env (Pause_Common m) s);
      strconv.Itoa (width env (Pause_Common m) s);
      strconv.Itoa (Pause_Seconds m)].

(** [init] is the text the input box opens with. *)
Definition inputbox_command_line (env : Env) (m : InputBox) (crumbs : string)
    (s : State) (text : State -> string) (init : string) : list string :=
  command_prefix env (InputBox_Common m)
  ++ ["--inputbox"; crumbs +:+ "\n" +:+ text s;
      strconv.Itoa (height env (InputBox_Common m) s);
      strconv.Itoa (width env (InputBox_Common m) s);
      init].

(** [triples] holds tag, name and status of every item. *)
Definition checklist_command_line (env : Env) (m : CheckListBox) (crumbs : string)
    (s : State) (text : State -> string) (triples : list string) : list string :=
  command_prefix env (CheckListBox_Common m)
  ++ ["--checklist"; crumbs +:+ "\n" +:+ text s;
      strconv.Itoa (height env (CheckListBox_Common m) s);
      strconv.Itoa (width env (CheckListBox_Common m) s);
      strconv.Itoa (Z.of_nat (length (CheckListBox_Items m)))]
  ++ triples.

Definition programbox_command_line (env : Env) (m : ProgramBox) (crumbs : string)
    (s : State) : list string :=
  command_prefix env (ProgramBox_Common m)
  ++ ["--programbox"; crumbs +:+ "\n" +:+ ProgramBox_Text m;
      strconv.Itoa (height env (ProgramBox_Common m) s);
      strconv.Itoa (width env (ProgramBox_Common m) s)].

(** The status word of a cell in the arguments of a checklist. *)
Definition status (on : bool) : string := if on then "on" else "off".

(** The text of the selected tags: the indices in decimal, one space apart. *)
Fixpoint joinTags (sel : list nat) : string :=
  match sel with
  | [] => EmptyString
  | [i] => strconv.Itoa (Z.of_nat i)
  | i :: rest => strconv.Itoa (Z.of_nat i) +:+ " " +:+ joinTags rest
  end.

(** A world where the pipe cannot be created. *)
Definition pipeless (e : error) : Env :=
  mkEnv "Title" (fun _ => Some e) (fun _ _ _ => (EmptyString, None))
        (fun _ => Some (80, 24)).

(** A world that answers [k1] while nothing has been started and [k2] after. *)
Definition answering_twice (k1 k2 : string) : Env :=
  mkEnv "Title" (fun _ => None)
        (fun s _ _ => (match trace s with [] => k1 | _ => k2 end, None))
        (fun _ => Some (80, 24)).

(** A message between two wrappers. *)
Definition wrappedX : Dialog :=
  ChildDialogV (mkChildDialog
                  (ChildDialogV (mkChildDialog nodeX None None None))
                  None None None).

(** A menu without options supplier, a menu whose supplier fails. *)
Definition menuNoSupplier : Menu := mkMenu plain None 0 EmptyString None.

Definition menuFailing : Menu :=
  mkMenu plain None 0 EmptyString
         (Some (fun _ => ([optionA; optionB], Some (ForeignError "no options")))).

(** A pause of five seconds. *)
Definition pause5 : Pause := mkPause plain "wait" 5 nodeX.

(** A string of decimal digits: what [strconv.Itoa] writes for an index. *)
Fixpoint digitsOnly (s : string) : bool :=
  match s with
  | EmptyString => true
  | String c s' => strconv.is_digit c && digitsOnly s'
  end.

(** Tokens one space apart. *)
Fixpoint join (tokens : list string) : string :=
  match tokens with
  | [] => EmptyString
  | [t] => t
  | t :: rest => t +:+ " " +:+ join rest
  end.

(** Where the spaces of [join tokens] are, in a text that has [pos] bytes
    before it: start and end of each. *)
Fixpoint spaces_at (pos : nat) (tokens : list string) : list (nat * nat) :=
  match tokens with
  | [] => []
  | [t] => []
  | t :: rest =>
      (pos + String.length t, S (pos + String.length t))%nat
      :: spaces_at (S (pos + String.length t)) rest
  end.

(** The tokens of a text of tags: strings of digits, none empty. *)
Definition tokens_ok (ts : list string) : Prop :=
  Forall (fun t => digitsOnly t = true /\ t <> EmptyString) ts.

(** A message box, the one [nodeX] points to. *)
Definition msgX : MsgBox := mkMsgBox plain "X" Nil.

(** A hundred columns less than the screen. *)
Definition tooNarrow : Common := mkCommon EmptyString EmptyString (-100) 0.

(** The bool cell 1 is on. *)
Definition cell1_on : State :=
  mkState (fun _ => EmptyString) (<[1%positive := true]> (fun _ => false)) [].

(** * Properties *)

(** ** Go's [int] and the library functions *)

Lemma in_rangeb_spec z : GoInt.in_rangeb z = true <-> GoInt.in_range z.
Proof. unfold GoInt.in_rangeb, GoInt.in_range. rewrite andb_true_iff. lia. Qed.

Lemma wrap_in_range z : GoInt.in_range z -> GoInt.wrap z = z.
Proof.
  unfold GoInt.in_range, GoInt.wrap, GoInt.min_int, GoInt.max_int. intros Hz.
  rewrite Z.mod_small; lia.
Qed.

(** What [Atoi] accepts is in the range of [int]. *)
Lemma Atoi_in_range v i : strconv.Atoi v = Some i -> GoInt.in_range i.
Proof.
  unfold strconv.Atoi. destruct v as [|c0 rest]; [discriminate|].
  cbv zeta.
  destruct (if Ascii.eqb c0 "-" || Ascii.eqb c0 "+" then rest else String c0 rest);
    [discriminate|].
  destruct (strconv.digits 0 _) as [n|]; [|discriminate].
  destruct (GoInt.in_rangeb _) eqn:Hr; [|discriminate].
  intros H. injection H as <-. apply in_rangeb_spec. exact Hr.
Qed.

Example Atoi_samples :
  map strconv.Atoi ["12"; "-0"; "+7"; "007"; ""; "-"; "1a"; "foo";
                    "9223372036854775807"; "9223372036854775808"]
  = [Some 12; Some 0; Some 7; Some 7; None; None; None; None;
     Some 9223372036854775807; None].
Proof. vm_compute. reflexivity. Qed.

Example Itoa_samples :
  map strconv.Itoa [0; 20; 60; -3] = ["0"; "20"; "60"; "-3"].
Proof. vm_compute. reflexivity. Qed.

Example TrimSpace_Split_samples :
  map (fun k => regexp.SplitSpaces (strings.TrimSpace k))
      [" 0 2 "; "0 foo 5"; ""; "   "; "1" +:+ String "009" "2"]
  = [["0"; "2"]; ["0"; "foo"; "5"]; [""]; [""]; ["1"; "2"]].
Proof. vm_compute. reflexivity. Qed.

(** A vertical tab is trimmed at the ends but does not separate tokens. *)
Example vertical_tab_sample :
  regexp.SplitSpaces (strings.TrimSpace (String "011" ("1" +:+ String "011" "2")))
  = ["1" +:+ String "011" "2"].
Proof. vm_compute. reflexivity. Qed.

(** ** The invocation of the external program *)

Section RunFacts.

Variable env : Env.

Lemma runStdin_eq args stdin s :
  runStdin env args stdin s =
    match os_Pipe env s with
    | Some err => (Returns (EmptyString, Some err), s)
    | None =>
        (Returns (cmd_Run env s (["--output-fd"; "3"] ++ args) stdin),
         started (["--output-fd"; "3"] ++ args) stdin s)
    end.
Proof.
  unfold runStdin, bind, get. destruct (os_Pipe env s); reflexivity.
Qed.

(** An invocation that reports no error has started the process once, with
    the prefixed arguments, and has touched no cell. *)
Lemma runStdin_ok args stdin s k s' :
  runStdin env args stdin s = (Returns (k, None), s') ->
  os_Pipe env s = None
  /\ cmd_Run env s (["--output-fd"; "3"] ++ args) stdin = (k, None)
  /\ s' = started (["--output-fd"; "3"] ++ args) stdin s.
Proof.
  rewrite runStdin_eq. destruct (os_Pipe env s); intros H.
  - discriminate.
  - injection H as H1 H2. auto.
Qed.

Lemma runStdin_cells args stdin s r s' :
  runStdin env args stdin s = (r, s') ->
  str_cells s' = str_cells s /\ bool_cells s' = bool_cells s.
Proof.
  rewrite runStdin_eq. destruct (os_Pipe env s); intros H;
    injection H as _ <-; auto.
Qed.

Lemma runStdin_returns args stdin s :
  exists r, fst (runStdin env args stdin s) = Returns r.
Proof.
  rewrite runStdin_eq. destruct (os_Pipe env s); eexists; reflexivity.
Qed.

End RunFacts.

(** ** Sizes *)

Section Sizes.

Variable env : Env.

Lemma add_screen_offset S v :
  0 <= S <= GoInt.max_int -> GoInt.in_range v -> v < 0 -> GoInt.add S v = S + v.
Proof.
  intros HS Hv Hneg. unfold GoInt.add. apply wrap_in_range.
  unfold GoInt.in_range, GoInt.min_int, GoInt.max_int in *. lia.
Qed.

(** C8: a positive width or height is returned as it is, zero gives the
    default (60 columns, 20 rows), a negative value [v] gives the screen
    dimension [S] plus [v] when the terminal size is known and the default
    when it is not.  [v] is an [int], [S] a dimension of the screen. *)
Theorem C8_size_resolution (c : Common) (s : State) :
  GoInt.in_range (Width c) -> GoInt.in_range (Height c) ->
  (0 < Width c -> width env c s = Width c)
  /\ (Width c = 0 -> width env c s = 60)
  /\ (forall S h, Width c < 0 -> terminal_GetSize env s = Some (S, h) ->
        0 <= S <= GoInt.max_int -> width env c s = S + Width c)
  /\ (Width c < 0 -> terminal_GetSize env s = None -> width env c s = 60)
  /\ (0 < Height c -> height env c s = Height c)
  /\ (Height c = 0 -> height env c s = 20)
  /\ (forall w S, Height c < 0 -> terminal_GetSize env s = Some (w, S) ->
        0 <= S <= GoInt.max_int -> height env c s = S + Height c)
  /\ (Height c < 0 -> terminal_GetSize env s = None -> height env c s = 20).
Proof.
  intros HW HH. unfold width, height.
  repeat split.
  - intros H. apply Z.ltb_lt in H. rewrite H. reflexivity.
  - intros ->. reflexivity.
  - intros S h Hneg Hsz HS.
    destruct (Z.ltb_spec 0 (Width c)); [lia|].
    destruct (Z.ltb_spec (Width c) 0); [|lia].
    rewrite Hsz. apply add_screen_offset; assumption.
  - intros Hneg Hsz.
    destruct (Z.ltb_spec 0 (Width c)); [lia|].
    destruct (Z.ltb_spec (Width c) 0); [|lia].
    rewrite Hsz. reflexivity.
  - intros H. apply Z.ltb_lt in H. rewrite H. reflexivity.
  - intros ->. reflexivity.
  - intros w S Hneg Hsz HS.
    destruct (Z.ltb_spec 0 (Height c)); [lia|].
    destruct (Z.ltb_spec (Height c) 0); [|lia].
    rewrite Hsz. apply add_screen_offset; assumption.
  - intros Hneg Hsz.
    destruct (Z.ltb_spec 0 (Height c)); [lia|].
    destruct (Z.ltb_spec (Height c) 0); [|lia].
    rewrite Hsz. reflexivity.
Qed.

End Sizes.

(** ** Menu *)

Section MenuFacts.

Variable env : Env.

Lemma appendOptions_concat (opts : list MenuOption) : forall args,
  appendOptions args opts =
    args ++ concat (map (fun mo => [MenuOption_Key mo; MenuOption_Text mo]) opts).
Proof.
  induction opts as [|mo rest IH]; intros args; simpl.
  - rewrite app_nil_r. reflexivity.
  - rewrite IH, <- app_assoc. reflexivity.
Qed.

Lemma Menu_args_command_line m crumbs s opts :
  ["--output-fd"; "3"] ++ Menu_args env m crumbs s opts
  = menu_command_line env m crumbs s opts.
Proof.
  unfold Menu_args, menu_command_line, runArgs, title, menuHeight.
  rewrite appendOptions_concat.
  destruct (decide (Title (Menu_Common m) <> EmptyString)) as [Ht|Ht];
    destruct (decide (Title (Menu_Common m) = EmptyString)) as [Ht'|Ht'];
    try contradiction; try (exfalso; apply Ht; intros E; apply Ht'; exact E);
    destruct (decide (Menu_DefaultKey m <> EmptyString)) as [Hk|Hk];
    destruct (decide (Menu_DefaultKey m = EmptyString)) as [Hk'|Hk'];
    try contradiction; try (exfalso; apply Hk; intros E; apply Hk'; exact E);
    destruct (Z.ltb_spec 0 (Menu_MenuHeight m));
    destruct (decide (0 < Menu_MenuHeight m)); try lia;
    destruct (Menu_Text m); simpl; rewrite <- ?app_assoc; reflexivity.
Qed.

(** The lookup loop returns the binding of the first option with the key. *)
Lemma selectOption_first m k (opts : list MenuOption) : forall i mo,
  opts !! i = Some mo -> MenuOption_Key mo = k ->
  (forall j mo', (j < i)%nat -> opts !! j = Some mo' -> MenuOption_Key mo' <> k) ->
  selectOption m k opts = (childOf m mo (crumbFunc mo), None).
Proof.
  induction opts as [|o rest IH]; intros i mo Hi Hk Hfirst.
  - discriminate.
  - simpl. destruct (decide (MenuOption_Key o = k)) as [Ho|Ho].
    + destruct i as [|i].
      * injection Hi as ->. reflexivity.
      * exfalso. apply (Hfirst 0%nat o); [lia|reflexivity|exact Ho].
    + destruct i as [|i].
      * injection Hi as ->. contradiction.
      * apply (IH i mo); [exact Hi|exact Hk|].
        intros j mo' Hj Hl. apply (Hfirst (S j) mo'); [lia|exact Hl].
Qed.

Lemma selectOption_none m k (opts : list MenuOption) :
  (forall mo, mo ∈ opts -> MenuOption_Key mo <> k) ->
  selectOption m k opts
  = (Nil, Some (Errorf ("returned option '" +:+ k +:+ "' not found"))).
Proof.
  induction opts as [|o rest IH]; intros Hno; simpl.
  - reflexivity.
  - destruct (decide (MenuOption_Key o = k)) as [Ho|Ho].
    + exfalso. apply (Hno o); [left|exact Ho].
    + apply IH. intros mo Hmo. apply Hno. right. exact Hmo.
Qed.

Lemma selectOption_find m k (opts : list MenuOption) :
  selectOption m k opts =
    match list_find (fun mo => MenuOption_Key mo = k) opts with
    | Some (_, mo) => (childOf m mo (crumbFunc mo), None)
    | None => (Nil, Some (Errorf ("returned option '" +:+ k +:+ "' not found")))
    end.
Proof.
  destruct (list_find _ opts) as [[i mo]|] eqn:Hf.
  - apply list_find_Some in Hf as (Hi & Hk & Hfirst).
    apply (selectOption_first m k opts i mo Hi Hk).
    intros j mo' Hj Hl. exact (Hfirst j mo' Hl Hj).
  - apply list_find_None in Hf. apply selectOption_none.
    intros mo Hmo. rewrite Forall_forall in Hf. apply Hf. exact Hmo.
Qed.

(** A menu whose supplier and invocation succeed returns what the lookup
    loop finds for the returned key. *)
Lemma Menu_Run_selects (m : Menu) crumbs s options opts k s' :
  Menu_Options m = Some options ->
  options s = (opts, None) ->
  run env (Menu_args env m crumbs s opts) s = (Returns (k, None), s') ->
  Run env (MenuP m) crumbs s = (Returns (selectOption m k opts), s').
Proof.
  intros Hm Ho Hrun. simpl. unfold Menu_Run. rewrite Hm.
  unfold bind at 1. unfold get at 1. rewrite Ho. simpl.
  unfold bind. rewrite Hrun. reflexivity.
Qed.

(** C1: when the options supplier succeeds and the invocation returns the
    key of some option, [Run] returns a [ChildDialog] that wraps the next
    node of the first option with that key, whose crumb function is the
    option's own when it has one and otherwise returns the option's text,
    and that refers back to the menu and to the option. *)
Theorem C1_menu_selects_first_match (m : Menu) crumbs s options opts k s' j mo0 :
  Menu_Options m = Some options ->
  options s = (opts, None) ->
  run env (Menu_args env m crumbs s opts) s = (Returns (k, None), s') ->
  opts !! j = Some mo0 ->
  MenuOption_Key mo0 = k ->
  exists i mo crumb,
    opts !! i = Some mo
    /\ MenuOption_Key mo = k
    /\ (forall i' mo', (i' < i)%nat -> opts !! i' = Some mo' ->
          MenuOption_Key mo' <> k)
    /\ Run env (MenuP m) crumbs s
       = (Returns (ChildDialogV
                     (mkChildDialog (MenuOption_Next mo) (Some crumb)
                                    (Some m) (Some mo)), None), s')
    /\ (forall f, MenuOption_CrumbText mo = Some f -> crumb = f)
    /\ (MenuOption_CrumbText mo = None ->
          forall st, crumb st = MenuOption_Text mo).
Proof.
  intros Hm Ho Hrun Hj Hk.
  destruct (list_find (fun mo => MenuOption_Key mo = k) opts) as [[i mo]|] eqn:Hf.
  - apply list_find_Some in Hf as (Hi & Hki & Hfirst).
    exists i, mo, (crumbFunc mo). split; [exact Hi|]. split; [exact Hki|].
    split; [intros i' mo' Hlt Hl; exact (Hfirst i' mo' Hl Hlt)|].
    split.
    + rewrite (Menu_Run_selects m crumbs s options opts k s' Hm Ho Hrun).
      rewrite (selectOption_first m k opts i mo Hi Hki); [reflexivity|].
      intros i' mo' Hlt Hl. exact (Hfirst i' mo' Hl Hlt).
    + unfold crumbFunc. split.
      * intros f ->. reflexivity.
      * intros ->. reflexivity.
  - exfalso. apply list_find_None in Hf. rewrite Forall_forall in Hf.
    apply (Hf mo0); [|exact Hk]. apply list_elem_of_lookup. exists j. exact Hj.
Qed.

(** C2: the returned key is compared with the keys of the options for
    equality, in order, and the first equal one is taken; when no option has
    the returned key, [Run] fails with the error of an unmatched selection
    and returns no next node. *)
Theorem C2_menu_unmatched_selection (m : Menu) crumbs s options opts k s' :
  Menu_Options m = Some options ->
  options s = (opts, None) ->
  run env (Menu_args env m crumbs s opts) s = (Returns (k, None), s') ->
  Run env (MenuP m) crumbs s
  = (Returns
       match list_find (fun mo => MenuOption_Key mo = k) opts with
       | Some (_, mo) => (childOf m mo (crumbFunc mo), None)
       | None => (Nil, Some (Errorf ("returned option '" +:+ k +:+ "' not found")))
       end, s')
  /\ ((forall mo, mo ∈ opts -> MenuOption_Key mo <> k) ->
      exists e, Run env (MenuP m) crumbs s = (Returns (Nil, Some e), s')
                /\ UnmatchedSelection e).
Proof.
  intros Hm Ho Hrun.
  rewrite (Menu_Run_selects m crumbs s options opts k s' Hm Ho Hrun).
  split.
  - rewrite selectOption_find. reflexivity.
  - intros Hno. rewrite (selectOption_none m k opts Hno).
    eexists. split; [reflexivity|]. exists k. reflexivity.
Qed.

(** C9: when the options supplier succeeds, the process is started once,
    with exactly the command line the specification describes. *)
Theorem C9_menu_command_line (m : Menu) crumbs s options opts :
  Menu_Options m = Some options ->
  options s = (opts, None) ->
  os_Pipe env s = None ->
  trace (snd (Run env (MenuP m) crumbs s))
  = trace s ++ [EvExec "dialog" (menu_command_line env m crumbs s opts) os_Stdin].
Proof.
  intros Hm Ho Hpipe. simpl. unfold Menu_Run. rewrite Hm.
  unfold bind at 1. unfold get at 1. rewrite Ho. simpl.
  unfold bind, run. rewrite runStdin_eq, Hpipe.
  rewrite Menu_args_command_line.
  destruct (cmd_Run env s _ os_Stdin) as [k [e|]]; simpl; reflexivity.
Qed.

End MenuFacts.

(** ** InputBox and CheckListBox *)

Section CellFacts.

Variable env : Env.

Lemma callValidate_eq validate k s :
  callValidate validate k s = (Returns tt, validated validate k s).
Proof.
  unfold callValidate, validated. destruct validate as [v|]; [|reflexivity].
  unfold bind, get, emit. simpl. destruct (snd (v s k)); reflexivity.
Qed.

(** C4: when the cell and the text supplier are set and the invocation
    returns the text [k], [Run] returns the configured sibling and the cell
    holds [k]; a configured validator is called on [k], and what it answers
    changes neither the cell nor the next node. *)
Theorem C4_input_written_unconditionally (m : InputBox) crumbs s value text k s1 :
  InputBox_Value m = Some value ->
  InputBox_Text m = Some text ->
  run env (InputBox_args env m crumbs s text value) s = (Returns (k, None), s1) ->
  exists s',
    Run env (InputBoxP m) crumbs s = (Returns (InputBox_NextSibling m, None), s')
    /\ str_cells s' value = k
    /\ str_cells s' = <[value := k]> (str_cells s)
    /\ bool_cells s' = bool_cells s
    /\ trace s' = trace s1 ++ match InputBox_Validate m with
                              | Some _ => [EvValidate k]
                              | None => []
                              end.
Proof.
  intros Hv Ht Hrun. simpl. unfold InputBox_Run. rewrite Hv, Ht.
  unfold bind at 1. unfold get at 1. unfold bind at 1. rewrite Hrun. simpl.
  unfold bind at 1. rewrite callValidate_eq.
  unfold bind, store_string, ret.
  apply runStdin_ok in Hrun as (_ & _ & ->).
  eexists. split; [reflexivity|]. simpl.
  destruct (InputBox_Validate m); simpl;
    rewrite ?app_nil_r; repeat split; apply fn_lookup_insert.
Qed.

Lemma hasNilValue_false items :
  hasNilValue items = false ->
  forall item, item ∈ items -> CheckListItem_Value item <> None.
Proof.
  induction items as [|it rest IH]; intros H item Hin.
  - inversion Hin.
  - simpl in H. apply orb_false_iff in H as [H1 H2].
    apply elem_of_cons in Hin as [->|Hin].
    + apply bool_decide_eq_false in H1. exact H1.
    + apply IH; assumption.
Qed.

Lemma hasNilValue_true items item :
  item ∈ items -> CheckListItem_Value item = None -> hasNilValue items = true.
Proof.
  intros Hin Hnil. unfold hasNilValue. apply existsb_exists.
  exists item. split.
  - apply list_elem_of_In. exact Hin.
  - apply bool_decide_eq_true. exact Hnil.
Qed.

(** After the check of the cells, [itemArgs] does not panic. *)
Lemma itemArgsFrom_total s items : forall i acc,
  hasNilValue items = false -> is_Some (itemArgsFrom s i items acc).
Proof.
  induction items as [|it rest IH]; intros i acc H; simpl.
  - eexists. reflexivity.
  - simpl in H. apply orb_false_iff in H as [H1 H2].
    apply bool_decide_eq_false in H1.
    destruct (CheckListItem_Value it) as [p|]; [|contradiction].
    apply IH. exact H2.
Qed.

Lemma index_insert_true (set : gmap Z bool) vi i :
  index (<[vi := true]> set) i = true <-> i = vi \/ index set i = true.
Proof.
  unfold index. destruct (decide (vi = i)) as [->|Hne].
  - rewrite lookup_insert_eq. simpl. tauto.
  - rewrite lookup_insert_ne by exact Hne. split; [tauto|].
    intros [->|H]; [contradiction|exact H].
Qed.

(** The parse loop adds exactly the indices some token denotes. *)
Lemma parseIndices_index len tokens : forall (set : gmap Z bool) i,
  index (parseIndices len tokens set) i = true <->
    index set i = true
    \/ exists v, v ∈ tokens /\ strconv.Atoi v = Some i /\ 0 <= i < len.
Proof.
  induction tokens as [|v rest IH]; intros set i; simpl.
  - split; [tauto|]. intros [H|(v & Hin & _)]; [exact H|inversion Hin].
  - destruct (strconv.Atoi v) as [vi|] eqn:Hv.
    + destruct ((0 <=? vi) && (vi <? len)) eqn:Hr.
      * apply andb_true_iff in Hr as [H0 H1].
        apply Z.leb_le in H0. apply Z.ltb_lt in H1.
        rewrite IH, index_insert_true. split.
        -- intros [[->|H]|(w & Hin & Hw)].
           ++ right. exists v. split; [left|]. split; [exact Hv|lia].
           ++ left. exact H.
           ++ right. exists w. split; [right; exact Hin|exact Hw].
        -- intros [H|(w & Hin & Hw & Hb)]; [tauto|].
           apply elem_of_cons in Hin as [->|Hin].
           ++ left. left. congruence.
           ++ right. exists w. auto.
      * rewrite IH. split.
        -- intros [H|(w & Hin & Hw)]; [tauto|].
           right. exists w. split; [right; exact Hin|exact Hw].
        -- intros [H|(w & Hin & Hw & Hb)]; [tauto|].
           apply elem_of_cons in Hin as [->|Hin].
           ++ exfalso. rewrite Hv in Hw. injection Hw as ->.
              apply andb_false_iff in Hr as [Hr|Hr];
                [apply Z.leb_gt in Hr|apply Z.ltb_ge in Hr]; lia.
           ++ right. exists w. auto.
    + rewrite IH. split.
      * intros [H|(w & Hin & Hw)]; [tauto|].
        right. exists w. split; [right; exact Hin|exact Hw].
      * intros [H|(w & Hin & Hw & Hb)]; [tauto|].
        apply elem_of_cons in Hin as [->|Hin]; [congruence|].
        right. exists w. auto.
Qed.

Lemma index_empty i : index ∅ i = false.
Proof. unfold index. rewrite lookup_empty. reflexivity. Qed.

(** The store loop: it never panics once every cell is set; it keeps the
    strings and the trace; it leaves the cells of no item alone; and when
    the items' cells are pairwise distinct, the cell of the item at
    position [j] holds the membership of its index. *)
Lemma storeItemsFrom_spec set items : forall i s,
  hasNilValue items = false ->
  exists s',
    storeItemsFrom set i items s = (Returns tt, s')
    /\ str_cells s' = str_cells s
    /\ trace s' = trace s
    /\ (forall p, Some p ∉ map CheckListItem_Value items ->
          bool_cells s' p = bool_cells s p)
    /\ (NoDup (map CheckListItem_Value items) ->
        forall j item p, items !! j = Some item ->
          CheckListItem_Value item = Some p ->
          bool_cells s' p = index set (i + Z.of_nat j)).
Proof.
  induction items as [|it rest IH]; intros i s H.
  - exists s. simpl. split; [reflexivity|]. split; [reflexivity|].
    split; [reflexivity|]. split; [intros; reflexivity|].
    intros _ j item p Hj. discriminate.
  - simpl in H. apply orb_false_iff in H as [H1 H2].
    apply bool_decide_eq_false in H1. simpl.
    destruct (CheckListItem_Value it) as [p0|] eqn:Hp0; [|contradiction].
    unfold bind at 1. unfold store_bool at 1.
    destruct (IH (i + 1)
                (mkState (str_cells s)
                   (<[p0 := index set i]> (bool_cells s)) (trace s)) H2)
      as (s' & Hrun & Hstr & Htr & Hother & Hdistinct).
    exists s'. split; [exact Hrun|]. split; [exact Hstr|]. split; [exact Htr|].
    split.
    + intros p Hp. rewrite Hother.
      * simpl. apply fn_lookup_insert_ne. intros ->. apply Hp. left.
      * intros Hin. apply Hp. right. exact Hin.
    + intros Hnd j item p Hj Hval. apply NoDup_cons in Hnd as [Hfresh Hnd].
      destruct j as [|j].
      * injection Hj as <-. rewrite Hp0 in Hval. injection Hval as <-.
        rewrite Hother by exact Hfresh. simpl.
        rewrite fn_lookup_insert. f_equal. lia.
      * rewrite (Hdistinct Hnd j item p Hj Hval). f_equal. lia.
Qed.

(** C3, for a checklist whose items are bound to pairwise distinct cells
    ([n] items): the returned text is trimmed and split on white space, the
    index set holds exactly the values in [0, n) that some token denotes as an
    integer (other tokens are dropped; with three items the text " 0 2 "
    gives 0 and 2, "0 foo 5" gives 0 only), and after [Run] the cell of every
    item holds the membership of its index. *)
Theorem C3_checklist_cells_distinct (m : CheckListBox) crumbs s text :
  hasNilValue (CheckListBox_Items m) = false ->
  CheckListBox_Text m = Some text ->
  NoDup (map CheckListItem_Value (CheckListBox_Items m)) ->
  exists args,
    CheckListBox_args env m crumbs s text = Some args
    /\ (forall k s1,
          run env args s = (Returns (k, None), s1) ->
          exists s',
            Run env (CheckListBoxP m) crumbs s
            = (Returns (CheckListBox_NextSibling m, None), s')
            /\ (forall i item p,
                  CheckListBox_Items m !! i = Some item ->
                  CheckListItem_Value item = Some p ->
                  bool_cells s' p = index (setIndicesOf m k) (Z.of_nat i))
            /\ str_cells s' = str_cells s)
    /\ (forall k i,
          index (setIndicesOf m k) i = true <->
            exists v, v ∈ regexp.SplitSpaces (strings.TrimSpace k)
                      /\ strconv.Atoi v = Some i
                      /\ 0 <= i < Z.of_nat (length (CheckListBox_Items m)))
    /\ (length (CheckListBox_Items m) = 3%nat ->
        setIndicesOf m " 0 2 " = <[2 := true]> (<[0 := true]> ∅)
        /\ setIndicesOf m "0 foo 5" = <[0 := true]> ∅).
Proof.
  intros Hnil Ht Hnd.
  destruct (itemArgsFrom_total s (CheckListBox_Items m) 0 [] Hnil) as [ia Hia].
  assert (Hargs : CheckListBox_args env m crumbs s text
                  = Some ((runArgs env (CheckListBox_Common m)
                           ++ ["--checklist"; crumbs +:+ "\n" +:+ text s;
                               strconv.Itoa (height env (CheckListBox_Common m) s);
                               strconv.Itoa (width env (CheckListBox_Common m) s);
                               strconv.Itoa
                                 (Z.of_nat (length (CheckListBox_Items m)))])
                          ++ ia)).
  { unfold CheckListBox_args, itemArgs. rewrite Hia. reflexivity. }
  eexists. split; [exact Hargs|]. split; [|split].
  - intros k s1 Hrun. simpl. unfold CheckListBox_Run. rewrite Hnil, Ht.
    unfold bind at 1. unfold get at 1. rewrite Hargs.
    unfold bind at 1. rewrite Hrun. simpl.
    unfold bind at 1. rewrite callValidate_eq.
    destruct (storeItemsFrom_spec (setIndicesOf m k) (CheckListBox_Items m) 0
                (validated (CheckListBox_Validate m) k s1) Hnil)
      as (s' & Hst & Hstr & _ & _ & Hdistinct).
    unfold bind. rewrite Hst. exists s'. split; [reflexivity|]. split.
    + intros i item p Hi Hv. rewrite (Hdistinct Hnd i item p Hi Hv).
      f_equal.
    + rewrite Hstr. apply runStdin_ok in Hrun as (_ & _ & ->).
      destruct (CheckListBox_Validate m); reflexivity.
  - intros k i. unfold setIndicesOf. rewrite parseIndices_index, index_empty.
    split; [intros [H|H]; [discriminate|exact H]|auto].
  - intros Hlen. unfold setIndicesOf. rewrite Hlen.
    split; vm_compute; reflexivity.
Qed.

(** C5: an input box without its cell or without its text supplier, and a
    checklist with an item without its cell or without its text supplier,
    fail with a precondition error and no next node; the state is the one
    [Run] started in, so the process has not been started. *)
Theorem C5_precondition_failures crumbs s :
  (forall m : InputBox,
      InputBox_Value m = None \/ InputBox_Text m = None ->
      exists e, Run env (InputBoxP m) crumbs s = (Returns (Nil, Some e), s)
                /\ PreconditionFailure e)
  /\ (forall m : CheckListBox,
        (exists item, item ∈ CheckListBox_Items m
                      /\ CheckListItem_Value item = None)
        \/ CheckListBox_Text m = None ->
        exists e, Run env (CheckListBoxP m) crumbs s = (Returns (Nil, Some e), s)
                  /\ PreconditionFailure e).
Proof.
  split.
  - intros m H. simpl. unfold InputBox_Run.
    destruct (InputBox_Value m) as [value|].
    + destruct H as [H|H]; [discriminate|]. rewrite H.
      eexists. split; [reflexivity|]. eexists. split; [reflexivity|].
      solve [repeat constructor].
    + eexists. split; [reflexivity|]. eexists. split; [reflexivity|].
      solve [repeat constructor].
  - intros m H. simpl. unfold CheckListBox_Run.
    destruct (hasNilValue (CheckListBox_Items m)) eqn:Hnil.
    + eexists. split; [reflexivity|]. eexists. split; [reflexivity|].
      solve [repeat constructor].
    + destruct H as [(item & Hin & Hv)|H].
      * rewrite (hasNilValue_true _ item Hin Hv) in Hnil. discriminate.
      * rewrite H. eexists. split; [reflexivity|].
        eexists. split; [reflexivity|]. set_solver.
Qed.

End CellFacts.

(** ** ProgramBox *)

Section ProgramFacts.

Variable env : Env.

(** C6: the process always reports; when it reports an error, [Run] returns
    that error whatever the producer reports; when the process succeeds and
    the producer reports an error, [Run] returns the producer's error; the
    configured next node is returned only when both succeed. *)
Theorem C6_programbox_error_order (m : ProgramBox) crumbs s program :
  ProgramBox_Program m = Some program ->
  exists r s1,
    runStdin env (ProgramBox_args env m crumbs s)
      (PipeReader (fst (program s))) s = (Returns r, s1)
    /\ (forall e, snd r = Some e ->
          Run env (ProgramBoxP m) crumbs s = (Returns (Nil, Some e), s1))
    /\ (forall e, snd r = None -> snd (program s) = Some e ->
          Run env (ProgramBoxP m) crumbs s = (Returns (Nil, Some e), s1))
    /\ (snd r = None -> snd (program s) = None ->
          Run env (ProgramBoxP m) crumbs s
          = (Returns (ProgramBox_Next m, None), s1)).
Proof.
  intros Hp. simpl. unfold ProgramBox_Run. rewrite Hp.
  unfold bind at 1 3 5. unfold get. unfold bind.
  destruct (runStdin env (ProgramBox_args env m crumbs s)
              (PipeReader (fst (program s))) s) as [[r|msg] s1] eqn:Hrun.
  - exists r, s1. split; [reflexivity|]. split; [|split].
    + intros e ->. reflexivity.
    + intros e -> ->. reflexivity.
    + intros -> ->. reflexivity.
  - exfalso. rewrite runStdin_eq in Hrun.
    destruct (os_Pipe env s); discriminate.
Qed.

End ProgramFacts.

(** ** Errors and the interface *)

Section ErrorFacts.

Variable env : Env.

Lemma selectOption_error m k (opts : list MenuOption) next e :
  selectOption m k opts = (next, Some e) -> next = Nil.
Proof.
  induction opts as [|o rest IH]; simpl.
  - intros H. injection H as <- _. reflexivity.
  - destruct (decide (MenuOption_Key o = k)); [discriminate|exact IH].
Qed.

Lemma selectOption_child m k (opts : list MenuOption) d :
  selectOption m k opts = (d, None) ->
  exists mo, mo ∈ opts /\ MenuOption_Key mo = k
             /\ d = childOf m mo (crumbFunc mo).
Proof.
  induction opts as [|o rest IH]; simpl.
  - discriminate.
  - destruct (decide (MenuOption_Key o = k)) as [Ho|Ho].
    + intros H. injection H as <-. exists o. split; [left|]. auto.
    + intros H. destruct (IH H) as (mo & Hin & Hk & Hd).
      exists mo. split; [right; exact Hin|]. auto.
Qed.

(** An invocation that ends [Run] with an error: nothing is written. *)
Ltac run_failed H :=
  unfold run, bind, get, ret in H; rewrite runStdin_eq in H;
  destruct (os_Pipe env _);
  [ injection H as <- _ <-; auto
  | destruct (cmd_Run env _ _ _) as [k [err|]]; simpl in H;
    [ injection H as <- _ <-; auto | ] ].

Lemma MsgBox_Run_error (m : MsgBox) crumbs s next e s' :
  MsgBox_Run env m crumbs s = (Returns (next, Some e), s') ->
  next = Nil /\ str_cells s' = str_cells s /\ bool_cells s' = bool_cells s.
Proof. unfold MsgBox_Run. intros H. run_failed H. discriminate. Qed.

Lemma Pause_Run_error (m : Pause) crumbs s next e s' :
  Pause_Run env m crumbs s = (Returns (next, Some e), s') ->
  next = Nil /\ str_cells s' = str_cells s /\ bool_cells s' = bool_cells s.
Proof. unfold Pause_Run. intros H. run_failed H. discriminate. Qed.

Lemma Menu_Run_error (m : Menu) crumbs s next e s' :
  Menu_Run env m crumbs s = (Returns (next, Some e), s') ->
  next = Nil /\ str_cells s' = str_cells s /\ bool_cells s' = bool_cells s.
Proof.
  unfold Menu_Run. destruct (Menu_Options m) as [options|]; [|discriminate].
  unfold bind at 1. unfold get at 1.
  destruct (snd (options s)) as [err|].
  - intros H. injection H as <- _ <-. auto.
  - intros H. run_failed H.
    destruct (selectOption m k (fst (options s))) as [d [err|]] eqn:Hsel;
      [|discriminate].
    injection H as <- _ <-. apply selectOption_error in Hsel. auto.
Qed.

Lemma InputBox_Run_error (m : InputBox) crumbs s next e s' :
  InputBox_Run env m crumbs s = (Returns (next, Some e), s') ->
  next = Nil /\ str_cells s' = str_cells s /\ bool_cells s' = bool_cells s.
Proof.
  unfold InputBox_Run. destruct (InputBox_Value m) as [value|].
  - destruct (InputBox_Text m) as [text|].
    + intros H. run_failed H.
      rewrite callValidate_eq in H. discriminate.
    + intros H. injection H as <- _ <-. auto.
  - intros H. injection H as <- _ <-. auto.
Qed.

Lemma CheckListBox_Run_error (m : CheckListBox) crumbs s next e s' :
  CheckListBox_Run env m crumbs s = (Returns (next, Some e), s') ->
  next = Nil /\ str_cells s' = str_cells s /\ bool_cells s' = bool_cells s.
Proof.
  unfold CheckListBox_Run.
  destruct (hasNilValue (CheckListBox_Items m)) eqn:Hnil.
  - intros H. injection H as <- _ <-. auto.
  - destruct (CheckListBox_Text m) as [text|].
    + unfold bind at 1. unfold get at 1.
      destruct (CheckListBox_args env m crumbs s text) as [args|]; [|discriminate].
      intros H. run_failed H.
      rewrite callValidate_eq in H.
      match type of H with
      | context [storeItemsFrom ?set 0 ?items ?st] =>
          destruct (storeItemsFrom_spec set items 0 st Hnil) as (s2 & Hst & _)
      end.
      rewrite Hst in H. discriminate.
    + intros H. injection H as <- _ <-. auto.
Qed.

Lemma ProgramBox_Run_error (m : ProgramBox) crumbs s next e s' :
  ProgramBox_Run env m crumbs s = (Returns (next, Some e), s') ->
  next = Nil /\ str_cells s' = str_cells s /\ bool_cells s' = bool_cells s.
Proof.
  unfold ProgramBox_Run. destruct (ProgramBox_Program m) as [program|].
  - intros H. run_failed H.
    destruct (snd (program s)); [|discriminate].
    injection H as <- _ <-. auto.
  - intros H. injection H as <- _ <-. auto.
Qed.

(** C7: whenever [Run] returns an error, for whatever node and whatever the
    cause (the process, a missing callback or cell, an unmatched selection,
    the options supplier, the producer), it returns no next node and the
    cells of the caller hold what they held before. *)
Theorem C7_error_leaves_cells_unchanged :
  forall (d : Dialog) crumbs s next e s',
    Run env d crumbs s = (Returns (next, Some e), s') ->
    next = Nil /\ str_cells s' = str_cells s /\ bool_cells s' = bool_cells s.
Proof.
  fix IH 1. intros [|m|m|m|m|m|m|c] crumbs s next e s'; simpl.
  - discriminate.
  - apply MsgBox_Run_error.
  - apply Pause_Run_error.
  - apply Menu_Run_error.
  - apply InputBox_Run_error.
  - apply CheckListBox_Run_error.
  - apply ProgramBox_Run_error.
  - destruct c as [d' crumb menu option]. simpl. apply IH.
Qed.

(** C10: a menu that returns a next node returns a [ChildDialog] around the
    next node of one of its options, and [Run] on that [ChildDialog] is
    [Run] on the wrapped node, for every breadcrumbs string and state: same
    next node, same error, same panic, same final state.  The same holds of
    every [ChildDialog] value. *)
Theorem C10_child_runs_wrapped_node (m : Menu) crumbs s d s' :
  Run env (MenuP m) crumbs s = (Returns (d, None), s') ->
  (exists (c : ChildDialog) mo,
      d = ChildDialogV c
      /\ ChildDialog_Dialog c = MenuOption_Next mo
      /\ ChildDialog_ParentMenu c = Some m
      /\ ChildDialog_MenuOption c = Some mo
      /\ forall crumbs' st,
           Run env d crumbs' st = Run env (MenuOption_Next mo) crumbs' st)
  /\ (forall (c : ChildDialog) crumbs' st,
        Run env (ChildDialogV c) crumbs' st
        = Run env (ChildDialog_Dialog c) crumbs' st).
Proof.
  intros H. split; [|reflexivity].
  simpl in H. unfold Menu_Run in H.
  destruct (Menu_Options m) as [options|]; [|discriminate].
  unfold bind at 1 in H. unfold get at 1 in H.
  destruct (snd (options s)) as [err|]; [discriminate|].
  unfold run, bind, get, ret in H. rewrite runStdin_eq in H.
  destruct (os_Pipe env s); [discriminate|].
  destruct (cmd_Run env s _ os_Stdin) as [k [err|]]; simpl in H; [discriminate|].
  injection H as Hsel _.
  apply selectOption_child in Hsel as (mo & _ & _ & ->).
  eexists. exists mo. split; [reflexivity|]. simpl. repeat split.
Qed.

End ErrorFacts.

(** ** The properties at sample inputs *)

(** Options 1/A/X and 2/B/Y, returned key 2: the node wraps Y and the crumb
    text is B. *)
Lemma C1_menu_round_trip :
  exists i mo crumb,
    [optionA; optionB] !! i = Some mo
    /\ MenuOption_Key mo = "2"
    /\ (forall i' mo', (i' < i)%nat -> [optionA; optionB] !! i' = Some mo' ->
          MenuOption_Key mo' <> "2")
    /\ Run (answering "2") (MenuP menuAB) "" blank
       = (Returns (ChildDialogV
                     (mkChildDialog (MenuOption_Next mo) (Some crumb)
                                    (Some menuAB) (Some mo)), None),
          snd (run (answering "2")
                 (Menu_args (answering "2") menuAB "" blank [optionA; optionB])
                 blank))
    /\ (forall f, MenuOption_CrumbText mo = Some f -> crumb = f)
    /\ (MenuOption_CrumbText mo = None ->
          forall st, crumb st = MenuOption_Text mo).
Proof.
  apply (C1_menu_selects_first_match (answering "2") menuAB "" blank optionsAB
           [optionA; optionB] "2" _ 1%nat optionB); reflexivity.
Defined.

(** Keys 1 and 2, returned key 9: an unmatched selection and no next node. *)
Lemma C2_unknown_key :
  exists e,
    fst (Run (answering "9") (MenuP menuAB) "" blank) = Returns (Nil, Some e)
    /\ UnmatchedSelection e.
Proof.
  destruct (C2_menu_unmatched_selection (answering "9") menuAB "" blank optionsAB
              [optionA; optionB] "9" _ eq_refl eq_refl eq_refl) as [_ Hno].
  destruct Hno as (e & Hrun & He).
  - intros mo Hin.
    apply elem_of_cons in Hin as [->|Hin]; [discriminate|].
    apply elem_of_cons in Hin as [->|Hin]; [discriminate|].
    inversion Hin.
  - exists e. rewrite Hrun. split; [reflexivity|exact He].
Defined.

(** Three items, returned text " 0 2 ": the cells read on, off, on. *)
Lemma C3_three_items :
  exists s',
    Run (answering " 0 2 ") (CheckListBoxP pick3) "" blank
    = (Returns (Nil, None), s')
    /\ map (bool_cells s') [1; 2; 3]%positive = [true; false; true].
Proof.
  destruct (C3_checklist_cells_distinct (answering " 0 2 ") pick3 "" blank
              (fun _ => "pick") eq_refl eq_refl)
    as (args & Hargs & Hrun & _ & Hsets).
  - simpl. repeat (apply NoDup_cons_2 || apply NoDup_nil_2);
      rewrite ?elem_of_cons, ?elem_of_nil; intuition discriminate.
  - vm_compute in Hargs. injection Hargs as <-.
    destruct (Hrun " 0 2 " _ eq_refl) as (s' & HRun & Hcells & _).
    exists s'. split; [exact HRun|].
    destruct (Hsets eq_refl) as [Hset _].
    cbn [map].
    rewrite (Hcells 0%nat _ 1%positive eq_refl eq_refl).
    rewrite (Hcells 1%nat _ 2%positive eq_refl eq_refl).
    rewrite (Hcells 2%nat _ 3%positive eq_refl eq_refl).
    rewrite Hset. reflexivity.
Defined.

(** Two items on one cell, returned text "0": index 0 is in the set, and
    after [Run] the cell of item 0 is off, written last for item 1. *)
Lemma C3_aliased_cells_counterexample :
  fst (Run (answering "0") (CheckListBoxP aliased) "" blank) = Returns (Nil, None)
  /\ index (setIndicesOf aliased "0") 0 = true
  /\ ~ (forall i item p,
          CheckListBox_Items aliased !! i = Some item ->
          CheckListItem_Value item = Some p ->
          bool_cells (snd (Run (answering "0") (CheckListBoxP aliased) "" blank)) p
          = index (setIndicesOf aliased "0") (Z.of_nat i)).
Proof.
  split; [vm_compute; reflexivity|]. split; [vm_compute; reflexivity|].
  intros H.
  specialize (H 0%nat (mkCheckListItem "a" (Some 1%positive)) 1%positive
                eq_refl eq_refl).
  vm_compute in H. discriminate.
Qed.

(** Cell holding "old", returned text "new", a validator that rejects: the
    cell holds "new" and the validator has been called. *)
Lemma C4_input_round_trip :
  exists s',
    Run (answering "new") (InputBoxP askName) "" holding_old
    = (Returns (Nil, None), s')
    /\ str_cells s' 1%positive = "new"
    /\ last (trace s') = Some (EvValidate "new").
Proof.
  destruct (C4_input_written_unconditionally (answering "new") askName ""
              holding_old 1%positive (fun _ => "name") "new" _
              eq_refl eq_refl eq_refl)
    as (s' & Hrun & Hcell & _ & _ & Htrace).
  exists s'. split; [exact Hrun|]. split; [exact Hcell|].
  rewrite Htrace. reflexivity.
Defined.

(** An input box without a cell fails at once: the trace stays empty. *)
Lemma C5_input_without_cell :
  exists e,
    Run (answering "new")
        (InputBoxP (mkInputBox plain (Some (fun _ => "name")) None None Nil))
        "" blank
    = (Returns (Nil, Some e), blank)
    /\ PreconditionFailure e.
Proof.
  destruct (C5_precondition_failures (answering "new") "" blank) as [Hinput _].
  apply Hinput. left. reflexivity.
Defined.

(** The process fails and the producer reports an error too: the error of
    the process is returned. *)
Lemma C6_process_error_first :
  exists s1,
    Run (failing (ForeignError "exit status 1")) (ProgramBoxP tailLog) "" blank
    = (Returns (Nil, Some (ForeignError "exit status 1")), s1).
Proof.
  destruct (C6_programbox_error_order (failing (ForeignError "exit status 1"))
              tailLog "" blank _ eq_refl)
    as (r & s1 & Hrun & Hfail & _).
  vm_compute in Hrun. injection Hrun as <- _.
  exists s1. apply Hfail. reflexivity.
Defined.

(** The process fails under an input box: no next node, "old" still there. *)
Lemma C7_failed_input_keeps_cell :
  Nil = Nil
  /\ str_cells (snd (Run (failing (ForeignError "exit status 1"))
                         (InputBoxP askName) "" holding_old))
     = str_cells holding_old
  /\ bool_cells (snd (Run (failing (ForeignError "exit status 1"))
                          (InputBoxP askName) "" holding_old))
     = bool_cells holding_old.
Proof.
  apply (C7_error_leaves_cells_unchanged (failing (ForeignError "exit status 1"))
           (InputBoxP askName) "" holding_old Nil (ForeignError "exit status 1")).
  reflexivity.
Defined.

(** Width -4 on a screen of 80 columns is 76; height 0 is 20. *)
Lemma C8_narrow_on_80_columns :
  width (answering "") narrow blank = 76
  /\ height (answering "") narrow blank = 20.
Proof.
  destruct (C8_size_resolution (answering "") narrow blank)
    as (_ & _ & Hneg & _ & _ & Hzero & _).
  - unfold GoInt.in_range, GoInt.min_int, GoInt.max_int. simpl. lia.
  - unfold GoInt.in_range, GoInt.min_int, GoInt.max_int. simpl. lia.
  - split.
    + apply (Hneg 80 24); [reflexivity|reflexivity|].
      unfold GoInt.max_int. lia.
    + apply Hzero. reflexivity.
Defined.

(** The command line of the menu with the options 1/A and 2/B. *)
Lemma C9_menuAB_command_line :
  trace (snd (Run (answering "2") (MenuP menuAB) "crumbs" blank))
  = [EvExec "dialog"
       ["--output-fd"; "3"; "--title"; "Title"; "--menu"; "crumbs";
        "20"; "60"; "2"; "1"; "A"; "2"; "B"] os_Stdin].
Proof.
  exact (C9_menu_command_line (answering "2") menuAB "crumbs" blank optionsAB
           [optionA; optionB] eq_refl eq_refl eq_refl).
Defined.

(** The binding returned for key 2 runs as the node Y does. *)
Lemma C10_binding_of_optionB :
  (exists (c : ChildDialog) mo,
      childOf menuAB optionB (crumbFunc optionB) = ChildDialogV c
      /\ ChildDialog_Dialog c = MenuOption_Next mo
      /\ ChildDialog_ParentMenu c = Some menuAB
      /\ ChildDialog_MenuOption c = Some mo
      /\ forall crumbs' st,
           Run (answering "2") (childOf menuAB optionB (crumbFunc optionB)) crumbs' st
           = Run (answering "2") (MenuOption_Next mo) crumbs' st)
  /\ (forall (c : ChildDialog) crumbs' st,
        Run (answering "2") (ChildDialogV c) crumbs' st
        = Run (answering "2") (ChildDialog_Dialog c) crumbs' st).
Proof.
  apply (C10_child_runs_wrapped_node (answering "2") menuAB "" blank
           (childOf menuAB optionB (crumbFunc optionB))
           (snd (Run (answering "2") (MenuP menuAB) "" blank))).
  reflexivity.
Defined.

(** * Further properties *)

(** ** Every method in one equation *)

Section NodeEquations.

Variable env : Env.

(** What a node does with the outcome of the process. *)
Lemma run_eq args s :
  run env args s =
    match os_Pipe env s with
    | Some err => (Returns (EmptyString, Some err), s)
    | None =>
        (Returns (cmd_Run env s (["--output-fd"; "3"] ++ args) os_Stdin),
         started (["--output-fd"; "3"] ++ args) os_Stdin s)
    end.
Proof. unfold run. apply runStdin_eq. Qed.

Lemma prefix_runArgs c rest :
  ["--output-fd"; "3"] ++ (runArgs env c ++ rest) = command_prefix env c ++ rest.
Proof.
  unfold runArgs, title, command_prefix.
  destruct (decide (Title c <> EmptyString)) as [Ht|Ht];
    destruct (decide (Title c = EmptyString)) as [Ht'|Ht'];
    try contradiction; reflexivity.
Qed.

Lemma MsgBox_Run_eq (m : MsgBox) crumbs s :
  MsgBox_Run env m crumbs s =
    match os_Pipe env s with
    | Some err => (Returns (Nil, Some err), s)
    | None =>
        let cl := msgbox_command_line env m s in
        (Returns match snd (cmd_Run env s cl os_Stdin) with
                 | Some err => (Nil, Some err)
                 | None => (MsgBox_NextSibling m, None)
                 end,
         started cl os_Stdin s)
    end.
Proof.
  unfold MsgBox_Run, bind, get, ret. rewrite run_eq.
  unfold MsgBox_args. rewrite prefix_runArgs. fold (msgbox_command_line env m s).
  destruct (os_Pipe env s); [reflexivity|].
  destruct (cmd_Run env s _ os_Stdin) as [k [e|]]; reflexivity.
Qed.

Lemma Pause_Run_eq (m : Pause) crumbs s :
  Pause_Run env m crumbs s =
    match os_Pipe env s with
    | Some err => (Returns (Nil, Some err), s)
    | None =>
        let cl := pause_command_line env m crumbs s in
        (Returns match snd (cmd_Run env s cl os_Stdin) with
                 | Some err => (Nil, Some err)
                 | None => (Pause_NextSibling m, None)
                 end,
         started cl os_Stdin s)
    end.
Proof.
  unfold Pause_Run, bind, get, ret. rewrite run_eq.
  unfold Pause_args. rewrite prefix_runArgs.
  fold (pause_command_line env m crumbs s).
  destruct (os_Pipe env s); [reflexivity|].
  destruct (cmd_Run env s _ os_Stdin) as [k [e|]]; reflexivity.
Qed.

Lemma Menu_Run_eq (m : Menu) crumbs s :
  Menu_Run env m crumbs s =
    match Menu_Options m with
    | None => (Panics "invalid memory address or nil pointer dereference", s)
    | Some options =>
        match snd (options s) with
        | Some err => (Returns (Nil, Some err), s)
        | None =>
            match os_Pipe env s with
            | Some err => (Returns (Nil, Some err), s)
            | None =>
                let cl := menu_command_line env m crumbs s (fst (options s)) in
                let r := cmd_Run env s cl os_Stdin in
                (Returns match snd r with
                         | Some err => (Nil, Some err)
                         | None => selectOption m (fst r) (fst (options s))
                         end,
                 started cl os_Stdin s)
            end
        end
    end.
Proof.
  unfold Menu_Run. destruct (Menu_Options m) as [options|]; [|reflexivity].
  unfold bind, get, ret. destruct (snd (options s)); [reflexivity|].
  rewrite run_eq, Menu_args_command_line.
  destruct (os_Pipe env s); [reflexivity|].
  destruct (cmd_Run env s _ os_Stdin) as [k [e|]]; reflexivity.
Qed.

Lemma InputBox_Run_eq (m : InputBox) crumbs s :
  InputBox_Run env m crumbs s =
    match InputBox_Value m, InputBox_Text m with
    | None, _ => (Returns (Nil, Some (Errorf "inputbox has no result ptr")), s)
    | Some _, None => (Returns (Nil, Some (Errorf "inputbox has no text func")), s)
    | Some value, Some text =>
        match os_Pipe env s with
        | Some err => (Returns (Nil, Some err), s)
        | None =>
            let cl := inputbox_command_line env m crumbs s text (str_cells s value) in
            let r := cmd_Run env s cl os_Stdin in
            match snd r with
            | Some err => (Returns (Nil, Some err), started cl os_Stdin s)
            | None =>
                (Returns (InputBox_NextSibling m, None),
                 mkState (<[value := fst r]> (str_cells s)) (bool_cells s)
                         (trace s ++ [EvExec "dialog" cl os_Stdin]
                          ++ validateEvents (InputBox_Validate m) (fst r)))
            end
        end
    end.
Proof.
  unfold InputBox_Run. destruct (InputBox_Value m) as [value|]; [|reflexivity].
  destruct (InputBox_Text m) as [text|]; [|reflexivity].
  unfold bind at 1. unfold get at 1. unfold bind at 1. rewrite run_eq.
  unfold InputBox_args. rewrite prefix_runArgs.
  fold (inputbox_command_line env m crumbs s text (str_cells s value)).
  destruct (os_Pipe env s); [reflexivity|].
  destruct (cmd_Run env s _ os_Stdin) as [k [e|]]; simpl; [reflexivity|].
  unfold bind at 1. rewrite callValidate_eq.
  unfold bind, store_string, ret, validated, validateEvents, started.
  destruct (InputBox_Validate m); simpl; rewrite <- ?app_assoc, ?app_nil_r;
    reflexivity.
Qed.

(** The store loop as a function of the cells. *)
Lemma storeItemsFrom_eq set items : forall i s,
  hasNilValue items = false ->
  storeItemsFrom set i items s
  = (Returns tt,
     mkState (str_cells s) (storedCells set i items (bool_cells s)) (trace s)).
Proof.
  induction items as [|it rest IH]; intros i s H; simpl.
  - destruct s. reflexivity.
  - simpl in H. apply orb_false_iff in H as [H1 H2].
    apply bool_decide_eq_false in H1.
    destruct (CheckListItem_Value it) as [p|]; [|contradiction].
    unfold bind, store_bool. rewrite (IH _ _ H2). reflexivity.
Qed.

Lemma CheckListBox_args_eq (m : CheckListBox) crumbs s text :
  option_map (app ["--output-fd"; "3"]) (CheckListBox_args env m crumbs s text)
  = option_map (checklist_command_line env m crumbs s text) (itemArgs m s).
Proof.
  unfold CheckListBox_args, checklist_command_line.
  destruct (itemArgs m s) as [triples|]; [|reflexivity].
  cbn [option_map]. f_equal.
  rewrite <- (app_assoc (runArgs env (CheckListBox_Common m))).
  rewrite (prefix_runArgs (CheckListBox_Common m)). reflexivity.
Qed.

Lemma CheckListBox_Run_eq (m : CheckListBox) crumbs s :
  CheckListBox_Run env m crumbs s =
    if hasNilValue (CheckListBox_Items m) then
      (Returns (Nil, Some (Errorf "checklistbox has no result ptr")), s)
    else
      match CheckListBox_Text m, itemArgs m s with
      | None, _ => (Returns (Nil, Some (Errorf "checklistbox has no text func")), s)
      | Some _, None =>
          (Panics "invalid memory address or nil pointer dereference", s)
      | Some text, Some triples =>
          match os_Pipe env s with
          | Some err => (Returns (Nil, Some err), s)
          | None =>
              let cl := checklist_command_line env m crumbs s text triples in
              let r := cmd_Run env s cl os_Stdin in
              match snd r with
              | Some err => (Returns (Nil, Some err), started cl os_Stdin s)
              | None =>
                  (Returns (CheckListBox_NextSibling m, None),
                   mkState (str_cells s)
                           (storedCells (setIndicesOf m (fst r)) 0
                              (CheckListBox_Items m) (bool_cells s))
                           (trace s ++ [EvExec "dialog" cl os_Stdin]
                            ++ validateEvents (CheckListBox_Validate m) (fst r)))
              end
          end
      end.
Proof.
  unfold CheckListBox_Run.
  destruct (hasNilValue (CheckListBox_Items m)) eqn:Hnil; [reflexivity|].
  destruct (CheckListBox_Text m) as [text|]; [|reflexivity].
  unfold bind at 1. unfold get at 1.
  pose proof (CheckListBox_args_eq m crumbs s text) as Hargs.
  destruct (itemArgs m s) as [triples|] eqn:Hia;
    destruct (CheckListBox_args env m crumbs s text) as [args|];
    try discriminate; [|reflexivity].
  simpl in Hargs. injection Hargs as Hargs.
  unfold bind at 1. rewrite run_eq. rewrite Hargs.
  destruct (os_Pipe env s); [reflexivity|].
  destruct (cmd_Run env s _ os_Stdin) as [k [e|]]; simpl; [reflexivity|].
  unfold bind at 1. rewrite callValidate_eq.
  unfold bind at 1. rewrite (storeItemsFrom_eq _ _ _ _ Hnil).
  unfold ret, validated, validateEvents, started.
  destruct (CheckListBox_Validate m); simpl; rewrite <- ?app_assoc, ?app_nil_r;
    reflexivity.
Qed.

Lemma ProgramBox_Run_eq (m : ProgramBox) crumbs s :
  ProgramBox_Run env m crumbs s =
    match ProgramBox_Program m with
    | None =>
        (Returns (Nil, Some (Errorf "programbox has no program callback set")), s)
    | Some program =>
        match os_Pipe env s with
        | Some err => (Returns (Nil, Some err), s)
        | None =>
            let cl := programbox_command_line env m crumbs s in
            let stdin := PipeReader (fst (program s)) in
            (Returns match snd (cmd_Run env s cl stdin), snd (program s) with
                     | Some err, _ => (Nil, Some err)
                     | None, Some err => (Nil, Some err)
                     | None, None => (ProgramBox_Next m, None)
                     end,
             started cl stdin s)
        end
    end.
Proof.
  unfold ProgramBox_Run. destruct (ProgramBox_Program m) as [program|]; [|reflexivity].
  unfold bind, get, ret. rewrite runStdin_eq.
  unfold ProgramBox_args. rewrite prefix_runArgs.
  fold (programbox_command_line env m crumbs s).
  destruct (os_Pipe env s); [reflexivity|].
  destruct (cmd_Run env s _ _) as [k [e|]]; simpl; [reflexivity|].
  destruct (snd (program s)); reflexivity.
Qed.

Lemma Run_innermost : forall (d : Dialog) crumbs s,
  Run env d crumbs s = Run env (innermost d) crumbs s.
Proof.
  fix IH 1. intros [|m|m|m|m|m|m|c] crumbs s; try reflexivity.
  destruct c as [d' crumb menu option]. simpl. apply IH.
Qed.

Lemma innermost_not_child : forall (d : Dialog) c, innermost d <> ChildDialogV c.
Proof.
  fix IH 1. intros [|m|m|m|m|m|m|c'] c; try discriminate.
  destruct c' as [d' crumb menu option]. simpl. apply IH.
Qed.

End NodeEquations.

(** ** What every [Run] does and never does *)

Section General.

Variable env : Env.

Lemma storedCells_other set items : forall i cells p,
  p ∉ omap CheckListItem_Value items ->
  storedCells set i items cells p = cells p.
Proof.
  induction items as [|it rest IH]; intros i cells p Hp; simpl; [reflexivity|].
  simpl in Hp. destruct (CheckListItem_Value it) as [q|]; [|reflexivity].
  simpl in Hp. apply not_elem_of_cons in Hp as [Hne Hp].
  rewrite IH by exact Hp. apply fn_lookup_insert_ne. congruence.
Qed.

(** The cases a proof about [Run] goes through, one per kind of node. *)
Ltac by_node d :=
  rewrite (Run_innermost env d); unfold string_cells_of, bool_cells_of;
  let E := fresh "E" in
  destruct (innermost d) as [|m|m|m|m|m|m|c] eqn:E;
  [ | | | | | | | exfalso; exact (innermost_not_child d c E) ];
  cbn [Run].

(** X1: a call of [Run], on whatever value of the interface, adds to the
    trace and starts the process at most once; the command line starts with
    the flag of the auxiliary descriptor and the title flag; a validator is
    called at most once, right after a process that reported no error, on
    the text that process wrote. *)
Theorem X1_Run_starts_at_most_one_process (d : Dialog) crumbs s :
  exists evs,
    trace (snd (Run env d crumbs s)) = trace s ++ evs
    /\ (evs = []
        \/ exists rest stdin,
             os_Pipe env s = None
             /\ (evs = [EvExec "dialog"
                          ("--output-fd" :: "3" :: "--title" :: rest) stdin]
                 \/ exists k,
                      evs = [EvExec "dialog"
                               ("--output-fd" :: "3" :: "--title" :: rest) stdin;
                             EvValidate k]
                      /\ cmd_Run env s
                           ("--output-fd" :: "3" :: "--title" :: rest) stdin
                         = (k, None))).
Proof.
  assert (Hnone : exists evs, trace s = trace s ++ evs
            /\ (evs = []
                \/ exists rest stdin,
                     os_Pipe env s = None
                     /\ (evs = [EvExec "dialog"
                                  ("--output-fd" :: "3" :: "--title" :: rest) stdin]
                         \/ exists k,
                              evs = [EvExec "dialog"
                                       ("--output-fd" :: "3" :: "--title" :: rest)
                                       stdin; EvValidate k]
                              /\ cmd_Run env s
                                   ("--output-fd" :: "3" :: "--title" :: rest) stdin
                                 = (k, None)))).
  { exists []. rewrite app_nil_r. auto. }
  by_node d.
  - exact Hnone.
  - rewrite MsgBox_Run_eq. destruct (os_Pipe env s) eqn:Hp; [exact Hnone|].
    eexists. split; [reflexivity|]. right. do 2 eexists.
    split; [reflexivity|]. left. reflexivity.
  - rewrite Pause_Run_eq. destruct (os_Pipe env s) eqn:Hp; [exact Hnone|].
    eexists. split; [reflexivity|]. right. do 2 eexists.
    split; [reflexivity|]. left. reflexivity.
  - rewrite Menu_Run_eq. destruct (Menu_Options m) as [options|]; [|exact Hnone].
    destruct (snd (options s)); [exact Hnone|].
    destruct (os_Pipe env s) eqn:Hp; [exact Hnone|].
    eexists. split; [reflexivity|]. right. do 2 eexists.
    split; [reflexivity|]. left. reflexivity.
  - rewrite InputBox_Run_eq.
    destruct (InputBox_Value m) as [value|]; [|exact Hnone].
    destruct (InputBox_Text m) as [text|]; [|exact Hnone].
    destruct (os_Pipe env s) eqn:Hp; [exact Hnone|]. cbv zeta.
    destruct (cmd_Run env s _ os_Stdin) as [k [e|]] eqn:Hr; cbn [snd fst].
    + eexists. split; [reflexivity|]. right. do 2 eexists.
      split; [reflexivity|]. left. reflexivity.
    + eexists. split; [reflexivity|]. right. do 2 eexists.
      split; [reflexivity|].
      destruct (InputBox_Validate m); cbn [validateEvents app].
      * right. exists k. split; [reflexivity|exact Hr].
      * left. reflexivity.
  - rewrite CheckListBox_Run_eq.
    destruct (hasNilValue (CheckListBox_Items m)); [exact Hnone|].
    destruct (CheckListBox_Text m) as [text|]; [|exact Hnone].
    destruct (itemArgs m s) as [triples|]; [|exact Hnone].
    destruct (os_Pipe env s) eqn:Hp; [exact Hnone|]. cbv zeta.
    destruct (cmd_Run env s _ os_Stdin) as [k [e|]] eqn:Hr; cbn [snd fst].
    + eexists. split; [reflexivity|]. right. do 2 eexists.
      split; [reflexivity|]. left. reflexivity.
    + eexists. split; [reflexivity|]. right. do 2 eexists.
      split; [reflexivity|].
      destruct (CheckListBox_Validate m); cbn [validateEvents app].
      * right. exists k. split; [reflexivity|exact Hr].
      * left. reflexivity.
  - rewrite ProgramBox_Run_eq.
    destruct (ProgramBox_Program m) as [program|]; [|exact Hnone].
    destruct (os_Pipe env s) eqn:Hp; [exact Hnone|].
    eexists. split; [reflexivity|]. right. do 2 eexists.
    split; [reflexivity|]. left. reflexivity.
Qed.

(** X2: [Run] writes no cell but those the node it runs is bound to: the
    string cell of an input box, the bool cells of the items of a checklist.
    Message boxes, pauses, menus and program boxes write nothing, and the
    cells of the nodes that come next are left alone. *)
Theorem X2_Run_writes_only_bound_cells (d : Dialog) crumbs s p :
  (p ∉ string_cells_of d ->
   str_cells (snd (Run env d crumbs s)) p = str_cells s p)
  /\ (p ∉ bool_cells_of d ->
      bool_cells (snd (Run env d crumbs s)) p = bool_cells s p).
Proof.
  by_node d.
  - auto.
  - rewrite MsgBox_Run_eq. destruct (os_Pipe env s); auto.
  - rewrite Pause_Run_eq. destruct (os_Pipe env s); auto.
  - rewrite Menu_Run_eq. destruct (Menu_Options m) as [options|]; [|auto].
    destruct (snd (options s)); [auto|]. destruct (os_Pipe env s); auto.
  - rewrite InputBox_Run_eq.
    destruct (InputBox_Value m) as [value|]; [|auto].
    destruct (InputBox_Text m) as [text|]; [|auto].
    destruct (os_Pipe env s); [auto|]. cbv zeta.
    destruct (snd (cmd_Run env s _ os_Stdin)); [auto|]. cbn [snd str_cells bool_cells].
    split; [|auto]. intros Hp. apply fn_lookup_insert_ne.
    intros ->. apply Hp. left.
  - rewrite CheckListBox_Run_eq.
    destruct (hasNilValue (CheckListBox_Items m)); [auto|].
    destruct (CheckListBox_Text m) as [text|]; [|auto].
    destruct (itemArgs m s) as [triples|]; [|auto].
    destruct (os_Pipe env s); [auto|]. cbv zeta.
    destruct (snd (cmd_Run env s _ os_Stdin)); [auto|]. cbn [snd str_cells bool_cells].
    split; [auto|]. intros Hp. apply storedCells_other. exact Hp.
  - rewrite ProgramBox_Run_eq.
    destruct (ProgramBox_Program m) as [program|]; [|auto].
    destruct (os_Pipe env s); auto.
Qed.

(** X3: [Run] on a [ChildDialog] is [Run] on the node at the end of the
    chain of embedded dialogs, and [Run] panics exactly when that node is
    [nil] or a menu without options supplier; a checklist never panics, its
    cells being checked first.  A panic leaves the state as it was. *)
Theorem X3_Run_panics_iff (d : Dialog) crumbs s :
  Run env d crumbs s = Run env (innermost d) crumbs s
  /\ ((exists msg, fst (Run env d crumbs s) = Panics msg) <->
      (innermost d = Nil
       \/ exists m, innermost d = MenuP m /\ Menu_Options m = None))
  /\ ((exists msg, fst (Run env d crumbs s) = Panics msg) ->
      snd (Run env d crumbs s) = s).
Proof.
  split; [apply Run_innermost|].
  by_node d.
  - split; [|reflexivity]. split; [auto|]. intros _. eexists. reflexivity.
  - rewrite MsgBox_Run_eq. split; [split|].
    + intros [msg H]. destruct (os_Pipe env s); discriminate.
    + intros [H|(m' & H & _)]; discriminate.
    + intros [msg H]. destruct (os_Pipe env s); discriminate.
  - rewrite Pause_Run_eq. split; [split|].
    + intros [msg H]. destruct (os_Pipe env s); discriminate.
    + intros [H|(m' & H & _)]; discriminate.
    + intros [msg H]. destruct (os_Pipe env s); discriminate.
  - rewrite Menu_Run_eq. destruct (Menu_Options m) as [options|] eqn:Ho.
    + split; [split|].
      * intros [msg H]. destruct (snd (options s)); [discriminate|].
        destruct (os_Pipe env s); discriminate.
      * intros [H|(m' & H & Hn)]; [discriminate|].
        injection H as <-. congruence.
      * intros [msg H]. destruct (snd (options s)); [discriminate|].
        destruct (os_Pipe env s); discriminate.
    + split; [|reflexivity]. split.
      * intros _. right. exists m. auto.
      * intros _. eexists. reflexivity.
  - rewrite InputBox_Run_eq.
    assert (Hno : forall msg,
      fst (match InputBox_Value m, InputBox_Text m with
           | None, _ => (Returns (Nil, Some (Errorf "inputbox has no result ptr")), s)
           | Some _, None =>
               (Returns (Nil, Some (Errorf "inputbox has no text func")), s)
           | Some value, Some text =>
               match os_Pipe env s with
               | Some err => (Returns (Nil, Some err), s)
               | None =>
                   let cl := inputbox_command_line env m crumbs s text
                               (str_cells s value) in
                   let r := cmd_Run env s cl os_Stdin in
                   match snd r with
                   | Some err => (Returns (Nil, Some err), started cl os_Stdin s)
                   | None =>
                       (Returns (InputBox_NextSibling m, None),
                        mkState (<[value := fst r]> (str_cells s)) (bool_cells s)
                          (trace s ++ [EvExec "dialog" cl os_Stdin]
                           ++ validateEvents (InputBox_Validate m) (fst r)))
                   end
               end
           end) <> Panics msg).
    { intros msg. destruct (InputBox_Value m); [|discriminate].
      destruct (InputBox_Text m); [|discriminate].
      destruct (os_Pipe env s); [discriminate|]. cbv zeta.
      destruct (snd (cmd_Run env s _ os_Stdin)); discriminate. }
    split; [split|].
    + intros [msg H]. exfalso. exact (Hno msg H).
    + intros [H|(m' & H & _)]; discriminate.
    + intros [msg H]. exfalso. exact (Hno msg H).
  - rewrite CheckListBox_Run_eq.
    destruct (hasNilValue (CheckListBox_Items m)) eqn:Hnil.
    + split; [split|].
      * intros [msg H]. discriminate.
      * intros [H|(m' & H & _)]; discriminate.
      * reflexivity.
    + destruct (itemArgsFrom_total s (CheckListBox_Items m) 0 [] Hnil) as [l Hl].
      unfold itemArgs. rewrite Hl.
      split; [split|].
      * intros [msg H]. destruct (CheckListBox_Text m); [|discriminate].
        destruct (os_Pipe env s); [discriminate|]. cbv zeta in H.
        destruct (snd (cmd_Run env s _ os_Stdin)); discriminate.
      * intros [H|(m' & H & _)]; discriminate.
      * intros [msg H]. destruct (CheckListBox_Text m); [|discriminate].
        destruct (os_Pipe env s); [discriminate|]. cbv zeta in H.
        destruct (snd (cmd_Run env s _ os_Stdin)); discriminate.
  - rewrite ProgramBox_Run_eq. split; [split|].
    + intros [msg H]. destruct (ProgramBox_Program m); [|discriminate].
      destruct (os_Pipe env s); discriminate.
    + intros [H|(m' & H & _)]; discriminate.
    + intros [msg H]. destruct (ProgramBox_Program m); [|discriminate].
      destruct (os_Pipe env s); discriminate.
Qed.

(** X4: when the pipe for the auxiliary descriptor cannot be created,
    [Run] changes nothing (no process, no validator call, no cell written),
    and what it returns, if it returns, is an error and no next node. *)
Theorem X4_pipe_failure_has_no_effect (d : Dialog) crumbs s e :
  os_Pipe env s = Some e ->
  snd (Run env d crumbs s) = s
  /\ (forall next err,
        fst (Run env d crumbs s) = Returns (next, err) ->
        next = Nil /\ err <> None).
Proof.
  intros Hp. by_node d.
  - split; [reflexivity|discriminate].
  - rewrite MsgBox_Run_eq, Hp. split; [reflexivity|].
    intros next err H. injection H as <- <-. auto.
  - rewrite Pause_Run_eq, Hp. split; [reflexivity|].
    intros next err H. injection H as <- <-. auto.
  - rewrite Menu_Run_eq, Hp. destruct (Menu_Options m) as [options|].
    + destruct (snd (options s)); (split; [reflexivity|]);
        intros next err H; injection H as <- <-; auto.
    + split; [reflexivity|discriminate].
  - rewrite InputBox_Run_eq, Hp.
    destruct (InputBox_Value m); [destruct (InputBox_Text m)|];
      (split; [reflexivity|]); intros next err H; injection H as <- <-; auto.
  - rewrite CheckListBox_Run_eq, Hp.
    destruct (hasNilValue (CheckListBox_Items m)).
    + split; [reflexivity|]. intros next err H. injection H as <- <-. auto.
    + destruct (CheckListBox_Text m); [destruct (itemArgs m s)|];
        (split; [reflexivity|]); intros next err H;
        try discriminate; injection H as <- <-; auto.
  - rewrite ProgramBox_Run_eq, Hp.
    destruct (ProgramBox_Program m);
      (split; [reflexivity|]); intros next err H; injection H as <- <-; auto.
Qed.

End General.

(** ** Node by node *)

Section NodeFacts.

Variable env : Env.

(** X5: a message box does not use the breadcrumbs; once the pipe is there
    it starts the process on title, [--msgbox], text, height and width,
    drops the text the process wrote, and returns the process's error with
    no next node, or else its sibling. *)
Theorem X5_msgbox_run (m : MsgBox) crumbs s :
  os_Pipe env s = None ->
  Run env (MsgBoxP m) crumbs s
  = (Returns match snd (cmd_Run env s (msgbox_command_line env m s) os_Stdin) with
             | Some err => (Nil, Some err)
             | None => (MsgBox_NextSibling m, None)
             end,
     started (msgbox_command_line env m s) os_Stdin s)
  /\ forall crumbs', Run env (MsgBoxP m) crumbs' s = Run env (MsgBoxP m) crumbs s.
Proof.
  intros Hp. split; [|reflexivity].
  cbn [Run]. rewrite MsgBox_Run_eq, Hp. reflexivity.
Qed.

(** X6: a pause shows the breadcrumbs, the separator and its text, and
    passes the seconds after height and width; it drops the text the process
    wrote and returns the process's error with no next node, or else its
    sibling. *)
Theorem X6_pause_run (m : Pause) crumbs s :
  os_Pipe env s = None ->
  Run env (PauseP m) crumbs s
  = (Returns match snd (cmd_Run env s (pause_command_line env m crumbs s) os_Stdin) with
             | Some err => (Nil, Some err)
             | None => (Pause_NextSibling m, None)
             end,
     started (pause_command_line env m crumbs s) os_Stdin s).
Proof.
  intros Hp. cbn [Run]. rewrite Pause_Run_eq, Hp. reflexivity.
Qed.

(** X7: a menu whose options supplier reports an error returns that error
    without starting the process, whatever options came with it; and when
    the process reports an error the menu returns it with no next node, even
    if the text it wrote is the key of an option. *)
Theorem X7_menu_failures (m : Menu) crumbs s options :
  Menu_Options m = Some options ->
  (forall e, snd (options s) = Some e ->
     Run env (MenuP m) crumbs s = (Returns (Nil, Some e), s))
  /\ (forall k e,
        snd (options s) = None ->
        os_Pipe env s = None ->
        cmd_Run env s (menu_command_line env m crumbs s (fst (options s))) os_Stdin
        = (k, Some e) ->
        fst (Run env (MenuP m) crumbs s) = Returns (Nil, Some e)).
Proof.
  intros Ho. cbn [Run]. rewrite Menu_Run_eq, Ho. split.
  - intros e ->. reflexivity.
  - intros k e -> -> Hr. cbv zeta. rewrite Hr. reflexivity.
Qed.

(** X8: an input box with its cell and its text supplier starts the process
    on title, [--inputbox], breadcrumbs and text, height, width, and the
    current content of the cell as the initial text; a validator is called
    only when the process reports no error. *)
Theorem X8_inputbox_command_line (m : InputBox) crumbs s value text :
  InputBox_Value m = Some value ->
  InputBox_Text m = Some text ->
  os_Pipe env s = None ->
  let cl := inputbox_command_line env m crumbs s text (str_cells s value) in
  trace (snd (Run env (InputBoxP m) crumbs s))
  = trace s ++ EvExec "dialog" cl os_Stdin
      :: match cmd_Run env s cl os_Stdin with
         | (k, None) => validateEvents (InputBox_Validate m) k
         | (_, Some _) => []
         end.
Proof.
  intros Hv Ht Hp. cbn [Run]. rewrite InputBox_Run_eq, Hv, Ht, Hp. cbv zeta.
  destruct (cmd_Run env s _ os_Stdin) as [k [e|]]; reflexivity.
Qed.

(** X9: what an input box has stored is what it opens with the next time:
    after a [Run] in which the process wrote [k] without error, a second
    [Run] starts the process with [k] as the initial text. *)
Theorem X9_inputbox_reopens_with_answer (m : InputBox) crumbs crumbs' s value text k :
  InputBox_Value m = Some value ->
  InputBox_Text m = Some text ->
  os_Pipe env s = None ->
  cmd_Run env s (inputbox_command_line env m crumbs s text (str_cells s value))
    os_Stdin = (k, None) ->
  let s1 := snd (Run env (InputBoxP m) crumbs s) in
  os_Pipe env s1 = None ->
  exists evs,
    trace (snd (Run env (InputBoxP m) crumbs' s1))
    = trace s1
      ++ EvExec "dialog" (inputbox_command_line env m crumbs' s1 text k) os_Stdin
      :: evs.
Proof.
  intros Hv Ht Hp Hr s1 Hp1.
  assert (Hcell : str_cells s1 value = k).
  { unfold s1. cbn [Run]. rewrite InputBox_Run_eq, Hv, Ht, Hp. cbv zeta.
    rewrite Hr. cbn [snd fst str_cells]. apply fn_lookup_insert. }
  cbn [Run]. rewrite InputBox_Run_eq, Hv, Ht, Hp1. cbv zeta. rewrite Hcell.
  destruct (cmd_Run env s1 _ os_Stdin) as [k' [e|]]; cbn [snd fst trace];
    eexists; reflexivity.
Qed.

(** X10: a program box with its producer starts the process once, on title,
    [--programbox], breadcrumbs and text, height and width, and the process
    reads what the producer wrote; this does not depend on the error the
    producer reports. *)
Theorem X10_programbox_command_line (m : ProgramBox) crumbs s program :
  ProgramBox_Program m = Some program ->
  os_Pipe env s = None ->
  snd (Run env (ProgramBoxP m) crumbs s)
  = started (programbox_command_line env m crumbs s)
            (PipeReader (fst (program s))) s.
Proof.
  intros Hprog Hp. cbn [Run]. rewrite ProgramBox_Run_eq, Hprog, Hp. reflexivity.
Qed.

(** X11: the missing cell is reported before the missing text supplier, for
    an input box and for a checklist, and a program box without producer is
    refused too; the three errors are precondition failures and leave the
    state as it was. *)
Theorem X11_precondition_messages crumbs s :
  (forall m : InputBox,
     InputBox_Value m = None ->
     Run env (InputBoxP m) crumbs s
     = (Returns (Nil, Some (Errorf "inputbox has no result ptr")), s))
  /\ (forall (m : CheckListBox) item,
        item ∈ CheckListBox_Items m ->
        CheckListItem_Value item = None ->
        Run env (CheckListBoxP m) crumbs s
        = (Returns (Nil, Some (Errorf "checklistbox has no result ptr")), s))
  /\ (forall m : ProgramBox,
        ProgramBox_Program m = None ->
        Run env (ProgramBoxP m) crumbs s
        = (Returns (Nil, Some (Errorf "programbox has no program callback set")), s))
  /\ PreconditionFailure (Errorf "programbox has no program callback set").
Proof.
  split; [|split; [|split]].
  - intros m Hv. cbn [Run]. rewrite InputBox_Run_eq, Hv. reflexivity.
  - intros m item Hin Hv. cbn [Run]. rewrite CheckListBox_Run_eq.
    rewrite (hasNilValue_true _ item Hin Hv). reflexivity.
  - intros m Hprog. cbn [Run]. rewrite ProgramBox_Run_eq, Hprog. reflexivity.
  - eexists. split; [reflexivity|]. solve [repeat constructor].
Qed.

(** X12: the resolved width is positive, except when the configured width
    is a negative offset at least as large as the screen is wide: then the
    sum, zero or negative, is passed on as it is.  The same for the height. *)
Theorem X12_size_not_clamped (c : Common) (s : State) :
  GoInt.in_range (Width c) -> GoInt.in_range (Height c) ->
  (forall w h, terminal_GetSize env s = Some (w, h) ->
               0 <= w <= GoInt.max_int /\ 0 <= h <= GoInt.max_int) ->
  (width env c s <= 0 <->
   Width c < 0 /\ exists w h, terminal_GetSize env s = Some (w, h) /\ w <= - Width c)
  /\ (height env c s <= 0 <->
      Height c < 0 /\ exists w h, terminal_GetSize env s = Some (w, h) /\ h <= - Height c).
Proof.
  intros HW HH Hscreen. unfold width, height, DEFAULT_WIDTH, DEFAULT_HEIGHT.
  destruct (terminal_GetSize env s) as [[w h]|] eqn:Hsz.
  - destruct (Hscreen w h eq_refl) as [Hw Hh]. split.
    + destruct (Z.ltb_spec 0 (Width c)); [|destruct (Z.ltb_spec (Width c) 0)].
      * split; [lia|]. intros [? _]. lia.
      * rewrite add_screen_offset by assumption. split.
        -- intros Hle. split; [assumption|]. exists w, h. split; [reflexivity|lia].
        -- intros (_ & w' & h' & E & Hle). injection E as <- <-. lia.
      * split; [lia|]. intros [? _]. lia.
    + destruct (Z.ltb_spec 0 (Height c)); [|destruct (Z.ltb_spec (Height c) 0)].
      * split; [lia|]. intros [? _]. lia.
      * rewrite add_screen_offset by assumption. split.
        -- intros Hle. split; [assumption|]. exists w, h. split; [reflexivity|lia].
        -- intros (_ & w' & h' & E & Hle). injection E as <- <-. lia.
      * split; [lia|]. intros [? _]. lia.
  - split.
    + destruct (Z.ltb_spec 0 (Width c)); [|destruct (Z.ltb_spec (Width c) 0)];
        (split; [lia|]); intros (_ & w & h & E & _); discriminate || lia.
    + destruct (Z.ltb_spec 0 (Height c)); [|destruct (Z.ltb_spec (Height c) 0)];
        (split; [lia|]); intros (_ & w & h & E & _); discriminate || lia.
Qed.

End NodeFacts.

(** ** The items of a checklist *)

Section ChecklistFacts.

Variable env : Env.

Lemma itemArgsFrom_None s items : forall i acc,
  itemArgsFrom s i items acc = None <-> hasNilValue items = true.
Proof.
  induction items as [|it rest IH]; intros i acc; simpl.
  - split; discriminate.
  - destruct (CheckListItem_Value it) as [p|] eqn:Hv.
    + rewrite IH. rewrite bool_decide_eq_false_2 by discriminate. reflexivity.
    + rewrite bool_decide_eq_true_2 by reflexivity. tauto.
Qed.

Lemma hasNilValue_true_iff items :
  hasNilValue items = true <->
  exists item, item ∈ items /\ CheckListItem_Value item = None.
Proof.
  split.
  - unfold hasNilValue. rewrite existsb_exists. intros (item & Hin & Hv).
    exists item. split; [apply list_elem_of_In; exact Hin|].
    apply bool_decide_eq_true in Hv. exact Hv.
  - intros (item & Hin & Hv). exact (hasNilValue_true items item Hin Hv).
Qed.

(** [itemArgs] appends three words per item. *)
Lemma itemArgsFrom_lookup s items : forall i acc l,
  itemArgsFrom s i items acc = Some l ->
  exists l',
    l = acc ++ l'
    /\ length l' = (3 * length items)%nat
    /\ forall j item p,
         items !! j = Some item -> CheckListItem_Value item = Some p ->
         l' !! (3 * j)%nat = Some (strconv.Itoa (i + Z.of_nat j))
         /\ l' !! (3 * j + 1)%nat = Some (CheckListItem_Name item)
         /\ l' !! (3 * j + 2)%nat = Some (status (bool_cells s p)).
Proof.
  induction items as [|it rest IH]; intros i acc l H; simpl in H.
  - injection H as <-. exists []. rewrite app_nil_r.
    split; [reflexivity|]. split; [reflexivity|]. intros j item p Hj. discriminate.
  - destruct (CheckListItem_Value it) as [p0|] eqn:Hv0; [|discriminate].
    assert (Hacc : (if bool_cells s p0
                    then ((acc ++ [strconv.Itoa i]) ++ [CheckListItem_Name it]) ++ ["on"]
                    else ((acc ++ [strconv.Itoa i]) ++ [CheckListItem_Name it]) ++ ["off"])
                   = acc ++ [strconv.Itoa i; CheckListItem_Name it;
                             status (bool_cells s p0)]).
    { unfold status. destruct (bool_cells s p0); rewrite <- !app_assoc; reflexivity. }
    rewrite Hacc in H. apply IH in H as (l'' & -> & Hlen & Hlook).
    exists ([strconv.Itoa i; CheckListItem_Name it; status (bool_cells s p0)] ++ l'').
    split; [rewrite <- app_assoc; reflexivity|].
    split; [simpl; rewrite Hlen; simpl; lia|].
    intros [|j] item p Hj Hp.
    + injection Hj as <-. rewrite Hv0 in Hp. injection Hp as <-.
      rewrite Z.add_0_r. simpl. auto.
    + simpl in Hj. destruct (Hlook j item p Hj Hp) as (H0 & H1 & H2).
      replace (3 * S j)%nat with (S (S (S (3 * j)))) by lia.
      replace (i + Z.of_nat (S j)) with (i + 1 + Z.of_nat j) by lia.
      simpl. auto.
Qed.

(** X13: [itemArgs] panics exactly when some item has no cell; otherwise it
    gives three words per item, in the items' order: the position as the tag,
    the name, and [on] or [off] as the item's cell reads. *)
Theorem X13_itemArgs (m : CheckListBox) s :
  (itemArgs m s = None <->
   exists item, item ∈ CheckListBox_Items m /\ CheckListItem_Value item = None)
  /\ forall triples,
       itemArgs m s = Some triples ->
       length triples = (3 * length (CheckListBox_Items m))%nat
       /\ forall j item p,
            CheckListBox_Items m !! j = Some item ->
            CheckListItem_Value item = Some p ->
            triples !! (3 * j)%nat = Some (strconv.Itoa (Z.of_nat j))
            /\ triples !! (3 * j + 1)%nat = Some (CheckListItem_Name item)
            /\ triples !! (3 * j + 2)%nat = Some (status (bool_cells s p)).
Proof.
  unfold itemArgs. split.
  - rewrite itemArgsFrom_None. apply hasNilValue_true_iff.
  - intros triples H. apply itemArgsFrom_lookup in H as (l' & -> & Hlen & Hlook).
    split; [exact Hlen|]. exact Hlook.
Qed.

Lemma itemArgs_Some_checked (m : CheckListBox) s triples :
  itemArgs m s = Some triples -> hasNilValue (CheckListBox_Items m) = false.
Proof.
  intros H. destruct (hasNilValue (CheckListBox_Items m)) eqn:Hnil; [|reflexivity].
  apply (itemArgsFrom_None s _ 0 []) in Hnil. unfold itemArgs in H. congruence.
Qed.

(** The outcome of a checklist whose process reports no error. *)
Lemma CheckListBox_Run_ok (m : CheckListBox) crumbs s text triples k :
  CheckListBox_Text m = Some text ->
  itemArgs m s = Some triples ->
  os_Pipe env s = None ->
  cmd_Run env s (checklist_command_line env m crumbs s text triples) os_Stdin
  = (k, None) ->
  Run env (CheckListBoxP m) crumbs s
  = (Returns (CheckListBox_NextSibling m, None),
     mkState (str_cells s)
       (storedCells (setIndicesOf m k) 0 (CheckListBox_Items m) (bool_cells s))
       (trace s
        ++ [EvExec "dialog" (checklist_command_line env m crumbs s text triples)
              os_Stdin]
        ++ validateEvents (CheckListBox_Validate m) k)).
Proof.
  intros Ht Hia Hp Hr. cbn [Run]. rewrite CheckListBox_Run_eq.
  rewrite (itemArgs_Some_checked m s triples Hia), Ht, Hia, Hp. cbv zeta.
  rewrite Hr. reflexivity.
Qed.

(** X14: a checklist with its cells and its text supplier starts the process
    on title, [--checklist], breadcrumbs and text, height, width, the number
    of items and the three words of every item; a validator is called only
    when the process reports no error. *)
Theorem X14_checklist_command_line (m : CheckListBox) crumbs s text :
  hasNilValue (CheckListBox_Items m) = false ->
  CheckListBox_Text m = Some text ->
  os_Pipe env s = None ->
  exists triples,
    itemArgs m s = Some triples
    /\ let cl := checklist_command_line env m crumbs s text triples in
       trace (snd (Run env (CheckListBoxP m) crumbs s))
       = trace s ++ EvExec "dialog" cl os_Stdin
           :: match cmd_Run env s cl os_Stdin with
              | (k, None) => validateEvents (CheckListBox_Validate m) k
              | (_, Some _) => []
              end.
Proof.
  intros Hnil Ht Hp.
  destruct (itemArgsFrom_total s (CheckListBox_Items m) 0 [] Hnil) as [triples Hia].
  exists triples. split; [exact Hia|].
  cbn [Run]. rewrite CheckListBox_Run_eq, Hnil, Ht. unfold itemArgs at 1.
  rewrite Hia, Hp. cbv zeta.
  destruct (cmd_Run env s _ os_Stdin) as [k [e|]]; reflexivity.
Qed.

(** The store loop leaves in a cell what it wrote for the last item bound
    to it. *)
Lemma storedCells_last set items : forall i cells j item p,
  hasNilValue items = false ->
  items !! j = Some item ->
  CheckListItem_Value item = Some p ->
  (forall j' item', (j < j')%nat -> items !! j' = Some item' ->
     CheckListItem_Value item' <> Some p) ->
  storedCells set i items cells p = index set (i + Z.of_nat j).
Proof.
  induction items as [|it rest IH]; intros i cells j item p Hnil Hj Hp Hlast.
  - discriminate.
  - simpl in Hnil. apply orb_false_iff in Hnil as [H1 H2].
    apply bool_decide_eq_false in H1. simpl.
    destruct (CheckListItem_Value it) as [p0|] eqn:Hv0; [|contradiction].
    destruct j as [|j].
    + injection Hj as <-. rewrite Hv0 in Hp. injection Hp as <-.
      rewrite storedCells_other.
      * rewrite fn_lookup_insert. f_equal. lia.
      * intros Hin. apply list_elem_of_omap in Hin as (item' & Hin & Hv').
        apply list_elem_of_lookup in Hin as [j' Hj'].
        apply (Hlast (S j') item'); [lia|exact Hj'|exact Hv'].
    + rewrite (IH (i + 1) _ j item p H2 Hj Hp).
      * f_equal. lia.
      * intros j' item' Hlt Hj'. apply (Hlast (S j') item'); [lia|exact Hj'].
Qed.

(** X15: when items share a cell, the cell ends with the membership of the
    last of them: after a [Run] in which the process wrote [k] without
    error, the cell of an item that no later item is bound to holds whether
    that item's index is in the set read from [k]. *)
Theorem X15_checklist_last_item_wins (m : CheckListBox) crumbs s text triples k j item p :
  CheckListBox_Text m = Some text ->
  itemArgs m s = Some triples ->
  os_Pipe env s = None ->
  cmd_Run env s (checklist_command_line env m crumbs s text triples) os_Stdin
  = (k, None) ->
  CheckListBox_Items m !! j = Some item ->
  CheckListItem_Value item = Some p ->
  (forall j' item', (j < j')%nat -> CheckListBox_Items m !! j' = Some item' ->
     CheckListItem_Value item' <> Some p) ->
  bool_cells (snd (Run env (CheckListBoxP m) crumbs s)) p
  = index (setIndicesOf m k) (Z.of_nat j).
Proof.
  intros Ht Hia Hp Hr Hj Hv Hlast.
  rewrite (CheckListBox_Run_ok m crumbs s text triples k Ht Hia Hp Hr).
  cbn [snd bool_cells].
  apply (storedCells_last _ _ 0 _ j item p
           (itemArgs_Some_checked m s triples Hia) Hj Hv Hlast).
Qed.

Lemma storedCells_constant set b0 items : forall i cells p,
  (forall i', index set i' = b0) ->
  hasNilValue items = false ->
  p ∈ omap CheckListItem_Value items ->
  storedCells set i items cells p = b0.
Proof.
  induction items as [|it rest IH]; intros i cells p Hb Hnil Hin.
  - inversion Hin.
  - simpl in Hnil. apply orb_false_iff in Hnil as [H1 H2].
    apply bool_decide_eq_false in H1. simpl. simpl in Hin.
    destruct (CheckListItem_Value it) as [p0|] eqn:Hv0; [|contradiction].
    simpl in Hin.
    destruct (decide (p ∈ omap CheckListItem_Value rest)) as [Hr|Hr].
    + apply IH; assumption.
    + rewrite storedCells_other by exact Hr.
      apply elem_of_cons in Hin as [->|Hin]; [|contradiction].
      rewrite fn_lookup_insert. apply Hb.
Qed.

(** X16: a returned text without a token that denotes an index of an item
    (the empty text, words, numbers out of range) switches every item off,
    shared cells included. *)
Theorem X16_checklist_nothing_selected (m : CheckListBox) crumbs s text triples k :
  CheckListBox_Text m = Some text ->
  itemArgs m s = Some triples ->
  os_Pipe env s = None ->
  cmd_Run env s (checklist_command_line env m crumbs s text triples) os_Stdin
  = (k, None) ->
  (forall v i, v ∈ regexp.SplitSpaces (strings.TrimSpace k) ->
               strconv.Atoi v = Some i ->
               ~ 0 <= i < Z.of_nat (length (CheckListBox_Items m))) ->
  forall item p,
    item ∈ CheckListBox_Items m ->
    CheckListItem_Value item = Some p ->
    bool_cells (snd (Run env (CheckListBoxP m) crumbs s)) p = false.
Proof.
  intros Ht Hia Hp Hr Hnone item p Hin Hv.
  rewrite (CheckListBox_Run_ok m crumbs s text triples k Ht Hia Hp Hr).
  cbn [snd bool_cells]. apply storedCells_constant.
  - intros i. destruct (index (setIndicesOf m k) i) eqn:Hi; [|reflexivity].
    exfalso. unfold setIndicesOf in Hi.
    apply parseIndices_index in Hi as [Hi|(v & Hvin & Hat & Hrange)].
    + rewrite index_empty in Hi. discriminate.
    + exact (Hnone v i Hvin Hat Hrange).
  - exact (itemArgs_Some_checked m s triples Hia).
  - apply list_elem_of_omap. exists item. auto.
Qed.

(** X17: what a checklist has stored is what it shows the next time: after
    a [Run] on pairwise distinct cells in which the process wrote [k]
    without error, the arguments of the next [Run] carry [on] for exactly
    the items whose index is in the set read from [k]. *)
Theorem X17_checklist_reopens_with_selection (m : CheckListBox) crumbs s text triples k :
  CheckListBox_Text m = Some text ->
  itemArgs m s = Some triples ->
  os_Pipe env s = None ->
  cmd_Run env s (checklist_command_line env m crumbs s text triples) os_Stdin
  = (k, None) ->
  NoDup (map CheckListItem_Value (CheckListBox_Items m)) ->
  exists triples1,
    itemArgs m (snd (Run env (CheckListBoxP m) crumbs s)) = Some triples1
    /\ forall j item,
         CheckListBox_Items m !! j = Some item ->
         triples1 !! (3 * j)%nat = Some (strconv.Itoa (Z.of_nat j))
         /\ triples1 !! (3 * j + 2)%nat
            = Some (status (index (setIndicesOf m k) (Z.of_nat j))).
Proof.
  intros Ht Hia Hp Hr Hnd.
  pose proof (itemArgs_Some_checked m s triples Hia) as Hnil.
  rewrite (CheckListBox_Run_ok m crumbs s text triples k Ht Hia Hp Hr).
  cbn [snd].
  match goal with |- context [itemArgs m ?st] => set (s1 := st) end.
  destruct (itemArgsFrom_total s1 (CheckListBox_Items m) 0 [] Hnil) as [triples1 H1].
  exists triples1. split; [exact H1|].
  apply itemArgsFrom_lookup in H1 as (l' & -> & _ & Hlook).
  intros j item Hj. cbn [app].
  destruct (CheckListItem_Value item) as [p|] eqn:Hv.
  - destruct (Hlook j item p Hj Hv) as (H0 & _ & H2).
    split; [exact H0|]. rewrite H2. f_equal. f_equal.
    unfold s1. cbn [bool_cells].
    apply (storedCells_last _ _ 0 _ j item p Hnil Hj Hv).
    intros j' item' Hlt Hj' Hv'.
    assert (j = j'); [|lia].
    apply (NoDup_lookup _ j j' (Some p) Hnd);
      rewrite list_lookup_fmap; [rewrite Hj|rewrite Hj']; simpl; congruence.
  - exfalso.
    apply (hasNilValue_false _ Hnil item); [|exact Hv].
    apply list_elem_of_lookup. exists j. exact Hj.
Qed.

End ChecklistFacts.

(** ** Tags written and read back *)

Section Digits.

Import strconv.

Lemma digits_of_uint_acc d : forall acc : positive,
  digits (Z.pos acc) (NilEmpty.string_of_uint d)
  = Some (Z.pos (Pos.of_uint_acc d acc)).
Proof.
  induction d; intros acc; cbn [NilEmpty.string_of_uint Pos.of_uint_acc digits];
    [reflexivity|..];
    (match goal with
     | |- (if is_digit ?c then _ else _) = _ =>
         replace (is_digit c) with true by (vm_compute; reflexivity)
     end);
    rewrite <- IHd; f_equal; unfold byte; cbn [N_of_ascii N_of_digits]; lia.
Qed.

Lemma digits_of_uint d :
  digits 0 (NilEmpty.string_of_uint d) = Some (Z.of_N (Pos.of_uint d)).
Proof.
  induction d; cbn [NilEmpty.string_of_uint Pos.of_uint digits];
    [reflexivity|..];
    (match goal with
     | |- (if is_digit ?c then _ else _) = _ =>
         replace (is_digit c) with true by (vm_compute; reflexivity)
     end);
    [exact IHd|..];
    cbn [Z.of_N]; rewrite <- digits_of_uint_acc; f_equal.
Qed.

Lemma digitsOnly_of_uint d : digitsOnly (NilEmpty.string_of_uint d) = true.
Proof. induction d; cbn [NilEmpty.string_of_uint digitsOnly]; auto. Qed.

Lemma is_digit_range c : is_digit c = true -> 48 <= byte c <= 57.
Proof. unfold is_digit. rewrite andb_true_iff. lia. Qed.

(** A text that starts with a digit is read without a sign. *)
Lemma Atoi_unsigned c rest n :
  is_digit c = true ->
  digits 0 (String c rest) = Some n ->
  GoInt.in_range n ->
  Atoi (String c rest) = Some n.
Proof.
  intros Hc Hd Hn. unfold Atoi.
  assert (Hminus : Ascii.eqb c "-" = false).
  { destruct (Ascii.eqb_spec c "-") as [->|]; [discriminate Hc|reflexivity]. }
  assert (Hplus : Ascii.eqb c "+" = false).
  { destruct (Ascii.eqb_spec c "+") as [->|]; [discriminate Hc|reflexivity]. }
  rewrite Hminus, Hplus. cbn [orb]. cbv zeta. rewrite Hd.
  rewrite (proj2 (in_rangeb_spec n) Hn). reflexivity.
Qed.

Lemma string_of_uint_head d :
  d <> Decimal.Nil ->
  exists c rest, NilEmpty.string_of_uint d = String c rest /\ is_digit c = true.
Proof.
  intros Hd. destruct d; [contradiction|..];
    cbn [NilEmpty.string_of_uint]; do 2 eexists; split; reflexivity.
Qed.

Lemma Itoa_pos p : Itoa (Z.pos p) = NilEmpty.string_of_uint (Pos.to_uint p).
Proof.
  unfold Itoa. cbn [Z.to_int NilZero.string_of_int]. unfold NilZero.string_of_uint.
  pose proof (DecimalPos.Unsigned.to_uint_nonnil p) as Hnn.
  destruct (Pos.to_uint p); [contradiction|reflexivity..].
Qed.

Lemma digits_Itoa_pos p : digits 0 (Itoa (Z.pos p)) = Some (Z.pos p).
Proof.
  rewrite Itoa_pos, digits_of_uint, DecimalPos.Unsigned.of_to. reflexivity.
Qed.

(** What [Itoa] writes, [Atoi] reads back. *)
Lemma Atoi_Itoa i : GoInt.in_range i -> Atoi (Itoa i) = Some i.
Proof.
  intros Hi. destruct i as [|p|p].
  - reflexivity.
  - pose proof (digits_Itoa_pos p) as Hd. rewrite Itoa_pos in *.
    destruct (string_of_uint_head (Pos.to_uint p)
                (DecimalPos.Unsigned.to_uint_nonnil p)) as (c & rest & E & Hc).
    rewrite E in *. apply Atoi_unsigned; assumption.
  - pose proof (digits_Itoa_pos p) as Hd.
    assert (E : Itoa (Z.neg p) = String "-" (Itoa (Z.pos p))).
    { rewrite Itoa_pos. unfold Itoa. cbn [Z.to_int NilZero.string_of_int].
      unfold NilZero.string_of_uint.
      pose proof (DecimalPos.Unsigned.to_uint_nonnil p) as Hnn.
      destruct (Pos.to_uint p); [contradiction|reflexivity..]. }
    rewrite E. rewrite Itoa_pos in *.
    destruct (string_of_uint_head (Pos.to_uint p)
                (DecimalPos.Unsigned.to_uint_nonnil p)) as (c & rest & E' & Hc).
    rewrite E' in *. unfold Atoi. cbn [Ascii.eqb Bool.eqb orb]. cbv zeta.
    rewrite Hd. replace (- Z.pos p) with (Z.neg p) by reflexivity.
    rewrite (proj2 (in_rangeb_spec (Z.neg p)) Hi). reflexivity.
Qed.

(** An index is written as a string of digits that is not empty. *)
Lemma Itoa_of_nat_digits (j : nat) :
  digitsOnly (Itoa (Z.of_nat j)) = true /\ Itoa (Z.of_nat j) <> EmptyString.
Proof.
  destruct (Z.of_nat j) as [|p|p] eqn:E.
  - split; [reflexivity|discriminate].
  - rewrite Itoa_pos. split; [apply digitsOnly_of_uint|].
    destruct (string_of_uint_head (Pos.to_uint p)
                (DecimalPos.Unsigned.to_uint_nonnil p)) as (c & rest & -> & _).
    discriminate.
  - lia.
Qed.

End Digits.

Section Tokens.

Import strconv.

Lemma string_app_cons x (a b : string) : String x a +:+ b = String x (a +:+ b).
Proof. reflexivity. Qed.

Lemma string_app_nil_l (a : string) : "" +:+ a = a.
Proof. reflexivity. Qed.

Lemma string_app_assoc (a b c : string) : (a +:+ b) +:+ c = a +:+ (b +:+ c).
Proof.
  induction a as [|x a IH]; [reflexivity|].
  rewrite !string_app_cons, IH. reflexivity.
Qed.

Lemma string_app_nil_r (a : string) : a +:+ "" = a.
Proof.
  induction a as [|x a IH]; [reflexivity|].
  rewrite string_app_cons, IH. reflexivity.
Qed.

Lemma string_length_app (a b : string) :
  String.length (a +:+ b) = (String.length a + String.length b)%nat.
Proof.
  induction a as [|x a IH]; [reflexivity|].
  rewrite string_app_cons. simpl. rewrite IH. reflexivity.
Qed.

Lemma substring_prefix (t b : string) :
  substring 0 (String.length t) (t +:+ b) = t.
Proof.
  induction t as [|x t IH].
  - rewrite string_app_nil_l. destruct b; reflexivity.
  - rewrite string_app_cons. simpl. rewrite IH. reflexivity.
Qed.

Lemma substring_skip (a b : string) n :
  substring (String.length a) n (a +:+ b) = substring 0 n b.
Proof.
  induction a as [|x a IH]; [reflexivity|].
  rewrite string_app_cons. simpl. exact IH.
Qed.

Lemma rev_app_rev_app (a : string) : forall b c,
  String.rev_app (String.rev_app a b) c = String.rev_app b (a +:+ c).
Proof.
  induction a as [|x a IH]; intros b c; [reflexivity|].
  rewrite string_app_cons. simpl. rewrite IH. reflexivity.
Qed.

Lemma string_rev_involutive (s : string) : String.rev (String.rev s) = s.
Proof.
  unfold String.rev. rewrite rev_app_rev_app. simpl. apply string_app_nil_r.
Qed.

Lemma rev_app_snoc (s : string) c : forall acc,
  String.rev_app (s +:+ String c "") acc = String c (String.rev_app s acc).
Proof.
  induction s as [|x s IH]; intros acc; [reflexivity|].
  rewrite string_app_cons. simpl. apply IH.
Qed.

Lemma string_rev_snoc (s : string) c :
  String.rev (s +:+ String c "") = String c (String.rev s).
Proof. apply rev_app_snoc. Qed.

(** A digit is no white space of either kind and is no byte of a rune that
    is. *)
Lemma digit_not_perlSpace c : is_digit c = true -> regexp.perlSpace c = false.
Proof.
  intros H%is_digit_range. unfold regexp.perlSpace. cbv zeta.
  repeat (rewrite (proj2 (Z.eqb_neq _ _)) by lia). reflexivity.
Qed.

Lemma digit_not_asciiSpace c : is_digit c = true -> strings.asciiSpace c = false.
Proof.
  intros H%is_digit_range. unfold strings.asciiSpace. cbv zeta.
  rewrite (proj2 (Z.leb_gt (byte c) 13)) by lia.
  rewrite (proj2 (Z.eqb_neq _ _)) by lia. rewrite andb_false_r. reflexivity.
Qed.

Lemma digit_not_space2_first c b : is_digit c = true -> strings.space2 c b = false.
Proof.
  intros H%is_digit_range. unfold strings.space2.
  rewrite (proj2 (Z.eqb_neq _ _)) by lia. reflexivity.
Qed.

Lemma digit_not_space3_first c a b : is_digit c = true -> strings.space3 c a b = false.
Proof.
  intros H%is_digit_range. unfold strings.space3.
  repeat (rewrite (proj2 (Z.eqb_neq (byte c) _)) by lia). reflexivity.
Qed.

Lemma digit_not_space2_last b c : is_digit c = true -> strings.space2 b c = false.
Proof.
  intros H%is_digit_range. unfold strings.space2.
  repeat (rewrite (proj2 (Z.eqb_neq (byte c) _)) by lia).
  apply andb_false_r.
Qed.

Lemma digit_not_space3_last a b c : is_digit c = true -> strings.space3 a b c = false.
Proof.
  intros H%is_digit_range. unfold strings.space3.
  repeat (rewrite (proj2 (Z.eqb_neq (byte c) _)) by lia).
  rewrite (proj2 (Z.leb_gt 128 (byte c))) by lia.
  rewrite !andb_false_r. reflexivity.
Qed.

Lemma trimLeft_digit c s : is_digit c = true ->
  strings.trimLeft (String c s) = String c s.
Proof.
  intros Hc. cbn [strings.trimLeft]. rewrite (digit_not_asciiSpace c Hc).
  destruct s as [|b s]; [reflexivity|].
  rewrite (digit_not_space2_first c b Hc).
  destruct s as [|a s]; [reflexivity|].
  rewrite (digit_not_space3_first c b a Hc). reflexivity.
Qed.

Lemma trimLeftRev_digit c r : is_digit c = true ->
  strings.trimLeftRev (String c r) = String c r.
Proof.
  intros Hc. cbn [strings.trimLeftRev]. rewrite (digit_not_asciiSpace c Hc).
  destruct r as [|b r]; [reflexivity|].
  rewrite (digit_not_space2_last b c Hc).
  destruct r as [|a r]; [reflexivity|].
  rewrite (digit_not_space3_last a b c Hc). reflexivity.
Qed.

(** A text between two digits is trimmed to itself. *)
Lemma TrimSpace_between_digits c s d :
  is_digit c = true -> is_digit d = true ->
  String c s = s +:+ String d "" \/ (exists s', String c s = s' +:+ String d "") ->
  strings.TrimSpace (String c s) = String c s.
Proof.
  intros Hc Hd Hlast. unfold strings.TrimSpace, strings.trimRight.
  rewrite (trimLeft_digit c s Hc).
  assert (exists s', String c s = s' +:+ String d "") as [s' E].
  { destruct Hlast as [E|E]; [exists s; exact E|exact E]. }
  rewrite E, string_rev_snoc, (trimLeftRev_digit d _ Hd).
  rewrite <- string_rev_snoc. apply string_rev_involutive.
Qed.

Lemma digitsOnly_last t :
  digitsOnly t = true -> t <> EmptyString ->
  exists t' d, t = t' +:+ String d "" /\ is_digit d = true.
Proof.
  induction t as [|x t IH]; intros Ht Hne; [contradiction|].
  simpl in Ht. apply andb_true_iff in Ht as [Hx Ht].
  destruct t as [|y t].
  - exists EmptyString, x. auto.
  - destruct (IH Ht) as (t' & d & E & Hd); [discriminate|].
    exists (String x t'), d. rewrite E. auto.
Qed.

Lemma digitsOnly_head t :
  digitsOnly t = true -> t <> EmptyString ->
  exists c rest, t = String c rest /\ is_digit c = true.
Proof.
  destruct t as [|c rest]; intros Ht Hne; [contradiction|].
  simpl in Ht. apply andb_true_iff in Ht as [Hc _]. eauto.
Qed.

Lemma join_head t ts :
  tokens_ok (t :: ts) ->
  exists c rest, join (t :: ts) = String c rest /\ is_digit c = true.
Proof.
  intros Hok. apply Forall_cons in Hok as [[Ht Hne] _].
  destruct (digitsOnly_head t Ht Hne) as (c & rest & -> & Hc).
  destruct ts; simpl; eauto.
Qed.

Lemma join_last ts : forall t,
  tokens_ok (t :: ts) ->
  exists s' d, join (t :: ts) = s' +:+ String d "" /\ is_digit d = true.
Proof.
  induction ts as [|t2 ts IH]; intros t Hok.
  - apply Forall_cons in Hok as [[Ht Hne] _]. simpl.
    apply digitsOnly_last; assumption.
  - apply Forall_cons in Hok as [_ Hok].
    destruct (IH t2 Hok) as (s' & d & E & Hd).
    exists (t +:+ " " +:+ s'), d.
    change (join (t :: t2 :: ts)) with (t +:+ " " +:+ join (t2 :: ts)).
    rewrite E, !string_app_assoc. auto.
Qed.

Lemma TrimSpace_join ts :
  tokens_ok ts -> strings.TrimSpace (join ts) = join ts.
Proof.
  destruct ts as [|t ts]; intros Hok; [reflexivity|].
  destruct (join_head t ts Hok) as (c & rest & E & Hc).
  destruct (join_last ts t Hok) as (s' & d & E' & Hd).
  rewrite E in *. apply (TrimSpace_between_digits c rest d Hc Hd).
  right. exists s'. exact E'.
Qed.

(** The runs of [\s] of a text of tokens are its single spaces. *)
Lemma findAllSpaces_digits t : forall pos s,
  digitsOnly t = true ->
  regexp.findAllSpaces pos None (t +:+ s)
  = regexp.findAllSpaces (pos + String.length t) None s.
Proof.
  induction t as [|x t IH]; intros pos s Ht; simpl.
  - rewrite Nat.add_0_r. reflexivity.
  - simpl in Ht. apply andb_true_iff in Ht as [Hx Ht].
    rewrite (digit_not_perlSpace x Hx), (IH _ _ Ht).
    f_equal. lia.
Qed.

Lemma findAllSpaces_join ts : forall pos,
  tokens_ok ts ->
  regexp.findAllSpaces pos None (join ts) = spaces_at pos ts.
Proof.
  induction ts as [|t ts IH]; intros pos Hok; [reflexivity|].
  pose proof Hok as Hok0.
  apply Forall_cons in Hok as [[Ht Hne] Hok].
  destruct ts as [|t2 ts].
  - simpl. rewrite <- (string_app_nil_r t) at 1.
    rewrite (findAllSpaces_digits t _ _ Ht). reflexivity.
  - change (join (t :: t2 :: ts)) with (t +:+ " " +:+ join (t2 :: ts)).
    change (spaces_at pos (t :: t2 :: ts))
      with ((pos + String.length t, S (pos + String.length t))%nat
            :: spaces_at (S (pos + String.length t)) (t2 :: ts)).
    rewrite (findAllSpaces_digits t _ _ Ht), <- (IH _ Hok).
    destruct (join_head t2 ts Hok) as (c & rest & E & Hc). rewrite E.
    rewrite string_app_cons, string_app_nil_l.
    simpl. rewrite (digit_not_perlSpace c Hc). reflexivity.
Qed.

Lemma splitLoop_join ts : forall t pre end_ acc,
  tokens_ok (t :: ts) ->
  (end_ < String.length (pre +:+ join (t :: ts)))%nat ->
  regexp.splitLoop (pre +:+ join (t :: ts))
    (spaces_at (String.length pre) (t :: ts)) (String.length pre) end_ acc
  = acc ++ t :: ts.
Proof.
  induction ts as [|t2 ts IH]; intros t pre end_ acc Hok Hend.
  - cbn [join spaces_at regexp.splitLoop].
    cbn [join] in Hend.
    rewrite (proj2 (Nat.eqb_neq _ _)) by lia.
    rewrite string_length_app.
    replace (String.length pre + String.length t - String.length pre)%nat
      with (String.length t) by lia.
    rewrite substring_skip.
    rewrite <- (string_app_nil_r t) at 2. rewrite substring_prefix. reflexivity.
  - apply Forall_cons in Hok as [[Ht Hne] Hok].
    change (join (t :: t2 :: ts)) with (t +:+ " " +:+ join (t2 :: ts)) in *.
    change (spaces_at (String.length pre) (t :: t2 :: ts))
      with ((String.length pre + String.length t,
             S (String.length pre + String.length t))%nat
            :: spaces_at (S (String.length pre + String.length t)) (t2 :: ts)).
    cbn [regexp.splitLoop Nat.eqb].
    replace (String.length pre + String.length t - String.length pre)%nat
      with (String.length t) by lia.
    rewrite substring_skip, substring_prefix.
    replace (S (String.length pre + String.length t))
      with (String.length (pre +:+ t +:+ " "))
      by (rewrite !string_length_app; simpl; lia).
    replace (pre +:+ t +:+ " " +:+ join (t2 :: ts))
      with ((pre +:+ t +:+ " ") +:+ join (t2 :: ts))
      by (rewrite !string_app_assoc; reflexivity).
    rewrite (IH t2 (pre +:+ t +:+ " ") _ _ Hok).
    + rewrite <- app_assoc. reflexivity.
    + rewrite !string_length_app in *. simpl in *. lia.
Qed.

Lemma SplitSpaces_join t ts :
  tokens_ok (t :: ts) -> regexp.SplitSpaces (join (t :: ts)) = t :: ts.
Proof.
  intros Hok. unfold regexp.SplitSpaces.
  destruct (join_head t ts Hok) as (c & rest & E & _).
  rewrite E. cbn [String.length Nat.eqb]. rewrite <- E.
  rewrite (findAllSpaces_join _ 0 Hok).
  apply (splitLoop_join ts t EmptyString 0 [] Hok).
  rewrite E. simpl. lia.
Qed.

Lemma joinTags_join sel : joinTags sel = join (map (fun j => Itoa (Z.of_nat j)) sel).
Proof.
  induction sel as [|j sel IH]; [reflexivity|].
  destruct sel as [|j2 sel]; [reflexivity|].
  change (joinTags (j :: j2 :: sel))
    with (Itoa (Z.of_nat j) +:+ " " +:+ joinTags (j2 :: sel)).
  rewrite IH. reflexivity.
Qed.

Lemma tags_ok sel : tokens_ok (map (fun j => Itoa (Z.of_nat j)) sel).
Proof.
  induction sel as [|j sel IH]; constructor; [apply Itoa_of_nat_digits|exact IH].
Qed.

(** The tokens of a text of tags are the tags. *)
Lemma tokens_joinTags j sel :
  regexp.SplitSpaces (strings.TrimSpace (joinTags (j :: sel)))
  = map (fun j => Itoa (Z.of_nat j)) (j :: sel).
Proof.
  rewrite joinTags_join, (TrimSpace_join _ (tags_ok (j :: sel))).
  apply (SplitSpaces_join _ _ (tags_ok (j :: sel))).
Qed.

End Tokens.

(** X18: the text of selected tags, written as [itemArgs] writes tags and
    one space apart, is read back as exactly the selected positions; the
    empty text selects nothing. *)
Theorem X18_selected_tags_read_back (m : CheckListBox) (sel : list nat) :
  GoInt.in_range (Z.of_nat (length (CheckListBox_Items m))) ->
  (forall j, j ∈ sel -> (j < length (CheckListBox_Items m))%nat) ->
  forall i,
    index (setIndicesOf m (joinTags sel)) i = true <->
    exists j, j ∈ sel /\ i = Z.of_nat j.
Proof.
  intros Hn Hsel i. destruct sel as [|j0 sel].
  - split.
    + intros H. vm_compute in H. discriminate.
    + intros (j & Hj & _). inversion Hj.
  - unfold setIndicesOf. rewrite tokens_joinTags, parseIndices_index, index_empty.
    split.
    + intros [H|(v & Hv & Hat & _)]; [discriminate|].
      apply list_elem_of_fmap in Hv as (j & -> & Hj).
      exists j. split; [exact Hj|].
      rewrite Atoi_Itoa in Hat; [congruence|].
      specialize (Hsel j Hj). unfold GoInt.in_range, GoInt.min_int in *. lia.
    + intros (j & Hj & ->). right. exists (strconv.Itoa (Z.of_nat j)).
      specialize (Hsel j Hj).
      split; [apply list_elem_of_fmap; exists j; auto|].
      split; [|lia]. apply Atoi_Itoa.
      unfold GoInt.in_range, GoInt.min_int in *. lia.
Qed.

(** ** The further properties at sample inputs *)

(** No pipe under an input box: the state, "old" included, stays. *)
Lemma X4_input_without_pipe :
  snd (Run (pipeless (ForeignError "too many open files")) (InputBoxP askName)
         "" holding_old) = holding_old
  /\ (forall next err,
        fst (Run (pipeless (ForeignError "too many open files")) (InputBoxP askName)
               "" holding_old) = Returns (next, err) ->
        next = Nil /\ err <> None).
Proof.
  apply (X4_pipe_failure_has_no_effect
           (pipeless (ForeignError "too many open files")) (InputBoxP askName) ""
           holding_old (ForeignError "too many open files")).
  reflexivity.
Defined.

(** The message X: five words after the flag of the descriptor. *)
Lemma X5_message_X :
  Run (answering "") (MsgBoxP msgX) "crumbs" blank
  = (Returns (Nil, None),
     started ["--output-fd"; "3"; "--title"; "Title"; "--msgbox"; "X"; "20"; "60"]
             os_Stdin blank)
  /\ forall crumbs',
       Run (answering "") (MsgBoxP msgX) crumbs' blank
       = Run (answering "") (MsgBoxP msgX) "crumbs" blank.
Proof.
  exact (X5_msgbox_run (answering "") msgX "crumbs" blank eq_refl).
Defined.

(** A pause of five seconds under the crumbs "top". *)
Lemma X6_pause_of_five_seconds :
  Run (answering "") (PauseP pause5) "top" blank
  = (Returns (nodeX, None),
     started ["--output-fd"; "3"; "--title"; "Title"; "--pause"; "top\nwait";
              "20"; "60"; "5"] os_Stdin blank).
Proof.
  exact (X6_pause_run (answering "") pause5 "top" blank eq_refl).
Defined.

(** A supplier that fails: its error, and an empty trace. *)
Lemma X7_failing_supplier :
  Run (answering "1") (MenuP menuFailing) "" blank
  = (Returns (Nil, Some (ForeignError "no options")), blank).
Proof.
  destruct (X7_menu_failures (answering "1") menuFailing "" blank _ eq_refl)
    as [Hsupplier _].
  apply Hsupplier. reflexivity.
Defined.

(** The input box opens with "old" and the validator is called on "new". *)
Lemma X8_input_opens_with_old :
  trace (snd (Run (answering "new") (InputBoxP askName) "top" holding_old))
  = [EvExec "dialog"
       ["--output-fd"; "3"; "--title"; "Title"; "--inputbox"; "top\nname";
        "20"; "60"; "old"] os_Stdin;
     EvValidate "new"].
Proof.
  exact (X8_inputbox_command_line (answering "new") askName "top" holding_old
           1%positive (fun _ => "name") eq_refl eq_refl eq_refl).
Defined.

(** Answer "new", then run again: the box opens with "new". *)
Lemma X9_input_opens_with_new :
  exists evs,
    trace (snd (Run (answering_twice "new" "newer") (InputBoxP askName) "again"
                  (snd (Run (answering_twice "new" "newer") (InputBoxP askName)
                          "top" holding_old))))
    = trace (snd (Run (answering_twice "new" "newer") (InputBoxP askName)
                    "top" holding_old))
      ++ EvExec "dialog"
           ["--output-fd"; "3"; "--title"; "Title"; "--inputbox"; "again\nname";
            "20"; "60"; "new"] os_Stdin
      :: evs.
Proof.
  exact (X9_inputbox_reopens_with_answer (answering_twice "new" "newer") askName
           "top" "again" holding_old 1%positive (fun _ => "name") "new"
           eq_refl eq_refl eq_refl eq_refl eq_refl).
Defined.

(** The process of the panel reads "log", though the producer fails. *)
Lemma X10_panel_reads_log :
  snd (Run (answering "") (ProgramBoxP tailLog) "top" blank)
  = started ["--output-fd"; "3"; "--title"; "Title"; "--programbox"; "top\nlog";
             "20"; "60"] (PipeReader "log") blank.
Proof.
  exact (X10_programbox_command_line (answering "") tailLog "top" blank _
           eq_refl eq_refl).
Defined.

(** A hundred columns less than a screen of eighty: no positive width. *)
Lemma X12_wider_offset_than_screen :
  width (answering "") tooNarrow blank <= 0.
Proof.
  destruct (X12_size_not_clamped (answering "") tooNarrow blank) as [Hw _].
  - unfold GoInt.in_range, GoInt.min_int, GoInt.max_int. simpl. lia.
  - unfold GoInt.in_range, GoInt.min_int, GoInt.max_int. simpl. lia.
  - intros w h E. injection E as <- <-. unfold GoInt.max_int. lia.
  - apply Hw. split; [simpl; lia|]. exists 80, 24. split; [reflexivity|simpl; lia].
Defined.

(** Three items, all off: nine words after the count. *)
Lemma X14_three_items_command_line :
  exists triples,
    itemArgs pick3 blank = Some triples
    /\ trace (snd (Run (answering " 0 2 ") (CheckListBoxP pick3) "top" blank))
       = trace blank
         ++ EvExec "dialog"
              (checklist_command_line (answering " 0 2 ") pick3 "top" blank
                 (fun _ => "pick") triples) os_Stdin
         :: [].
Proof.
  exact (X14_checklist_command_line (answering " 0 2 ") pick3 "top" blank
           (fun _ => "pick") eq_refl eq_refl eq_refl).
Defined.

(** Two items on cell 1, returned text "1": the cell is on, as item 1 says. *)
Lemma X15_shared_cell_follows_item_1 :
  bool_cells (snd (Run (answering "1") (CheckListBoxP aliased) "" blank)) 1%positive
  = index (setIndicesOf aliased "1") 1.
Proof.
  apply (X15_checklist_last_item_wins (answering "1") aliased "" blank
           (fun _ => "pick") _ "1" 1%nat (mkCheckListItem "b" (Some 1%positive))
           1%positive eq_refl eq_refl eq_refl eq_refl eq_refl eq_refl).
  intros [|[|[|j']]] item' Hlt Hj'; try lia; discriminate.
Defined.

(** Cell 1 on, returned text "foo 7" for two items: the cell goes off. *)
Lemma X16_words_switch_off :
  bool_cells (snd (Run (answering "foo 7") (CheckListBoxP aliased) "" cell1_on))
    1%positive = false.
Proof.
  apply (X16_checklist_nothing_selected (answering "foo 7") aliased "" cell1_on
           (fun _ => "pick") _ "foo 7" eq_refl eq_refl eq_refl eq_refl)
    with (item := mkCheckListItem "a" (Some 1%positive)).
  - intros v i Hv Hat.
    apply elem_of_cons in Hv as [->|Hv]; [discriminate|].
    apply elem_of_cons in Hv as [->|Hv]; [|inversion Hv].
    vm_compute in Hat. injection Hat as <-. simpl. lia.
  - left.
  - reflexivity.
Defined.

(** After " 0 2 " on three items the next arguments say on, off, on. *)
Lemma X17_three_items_reopened :
  exists triples1,
    itemArgs pick3 (snd (Run (answering " 0 2 ") (CheckListBoxP pick3) "" blank))
    = Some triples1
    /\ forall j item,
         CheckListBox_Items pick3 !! j = Some item ->
         triples1 !! (3 * j)%nat = Some (strconv.Itoa (Z.of_nat j))
         /\ triples1 !! (3 * j + 2)%nat
            = Some (status (index (setIndicesOf pick3 " 0 2 ") (Z.of_nat j))).
Proof.
  apply (X17_checklist_reopens_with_selection (answering " 0 2 ") pick3 "" blank
           (fun _ => "pick") _ " 0 2 " eq_refl eq_refl eq_refl eq_refl).
  simpl. repeat (apply NoDup_cons_2 || apply NoDup_nil_2);
    rewrite ?elem_of_cons, ?elem_of_nil; intuition discriminate.
Defined.

(** The tags 0 and 2 of three items: 2 is selected, 1 is not. *)
Lemma X18_tags_0_and_2 :
  index (setIndicesOf pick3 (joinTags [0; 2]%nat)) 2 = true
  /\ index (setIndicesOf pick3 (joinTags [0; 2]%nat)) 1 = false.
Proof.
  assert (Hn : GoInt.in_range (Z.of_nat (length (CheckListBox_Items pick3)))).
  { unfold GoInt.in_range, GoInt.min_int, GoInt.max_int. simpl. lia. }
  assert (Hsel : forall j, j ∈ [0; 2]%nat ->
                           (j < length (CheckListBox_Items pick3))%nat).
  { intros j Hj. apply elem_of_cons in Hj as [->|Hj]; [simpl; lia|].
    apply elem_of_cons in Hj as [->|Hj]; [simpl; lia|]. inversion Hj. }
  split.
  - apply (X18_selected_tags_read_back pick3 [0; 2]%nat Hn Hsel 2).
    exists 2%nat. split; [right; left|reflexivity].
  - destruct (index (setIndicesOf pick3 (joinTags [0; 2]%nat)) 1) eqn:E;
      [|reflexivity].
    apply (X18_selected_tags_read_back pick3 [0; 2]%nat Hn Hsel 1) in E
      as (j & Hj & Hij).
    apply elem_of_cons in Hj as [->|Hj]; [discriminate|].
    apply elem_of_cons in Hj as [->|Hj]; [discriminate|]. inversion Hj.
Defined.
